(** * Lighthouse runner: a shallow embedding of [lighthouse-core/runner.js]

    The orchestrator [Runner] sequences a gather phase, an optional save of
    the gathered artifacts, an audit phase and the construction of the
    Lighthouse result (LHR).  Its collaborators (GatherRunner, AuditRunner,
    ReportScoring, asset-saver, i18n, the report generator, Sentry, Node's
    [path] and [Date.now]) live in other modules; they are gathered here
    in a record of functions, every call to one of them is recorded in a
    trace of events, and a call that can throw returns a sum.

    JavaScript values are modelled by the inductive [JsVal]; a settings
    object is a finite map from property names to values. *)

From stdpp Require Import gmap strings list fin_maps sorting.
From Stdlib Require Import ZArith Ascii.

#[local] Set Warnings "-register-all".

(** ** JavaScript values *)

(** Plain data as found in a config, in settings and in artifacts.  Numbers
    are only stored and compared by the runner, never computed with, except
    for timestamps which are integers. *)
Inductive JsVal : Type :=
  | JUndefined
  | JNull
  | JBool (b : bool)
  | JNum (n : Z)
  | JStr (s : string)
  | JArr (l : list JsVal)
  | JObj (m : gmap string JsVal).

Fixpoint JsVal_eq_dec (x y : JsVal) {struct x} : Decision (x = y).
Proof.
  refine
    match x, y with
    | JUndefined, JUndefined => left _
    | JNull, JNull => left _
    | JBool a, JBool b => cast_if (decide (a = b))
    | JNum a, JNum b => cast_if (decide (a = b))
    | JStr a, JStr b => cast_if (decide (a = b))
    | JArr a, JArr b => cast_if (@list_eq_dec JsVal JsVal_eq_dec a b)
    | JObj a, JObj b =>
        cast_if (@gmap_eq_dec string _ _ JsVal JsVal_eq_dec a b)
    | _, _ => right _
    end; congruence.
Defined.

#[global] Instance JsVal_eqdec : EqDecision JsVal := JsVal_eq_dec.

(** [!!v] : the empty string, [0], [false], [null] and [undefined] are
    falsy; every array and object is truthy, the empty ones too. *)
Definition truthy (v : JsVal) : bool :=
  match v with
  | JUndefined | JNull => false
  | JBool b => b
  | JNum n => negb (n =? 0)%Z
  | JStr s => negb (String.eqb s EmptyString)
  | JArr _ | JObj _ => true
  end.

(** [a === b].  Primitives are compared by type and value.  Arrays and
    objects are compared by reference; references are not part of this
    model, and two operands read from two different properties are taken
    as two different references. *)
Definition strictEq (a b : JsVal) : bool :=
  match a, b with
  | JUndefined, JUndefined => true
  | JNull, JNull => true
  | JBool x, JBool y => Bool.eqb x y
  | JNum x, JNum y => (x =? y)%Z
  | JStr x, JStr y => String.eqb x y
  | _, _ => false
  end.

(** [typeof v === 'string'] *)
Definition isString (v : JsVal) : bool :=
  match v with JStr _ => true | _ => false end.

(** An object as a finite map of its own enumerable properties. *)
Abbreviation JsObject := (gmap string JsVal).

(** [o.k] : a missing property reads as [undefined]. *)
Definition getProp (o : JsObject) (k : string) : JsVal :=
  default JUndefined (o !! k).

(** [Object.assign(target, ...sources)] : the properties of each source
    are copied over the target, later sources winning. *)
Definition Object_assign (target : JsObject) (sources : list JsObject)
  : JsObject :=
  fold_left (fun acc src => src ∪ acc) sources target.

(** [lodash.isequal] on two plain objects: same own keys, deeply equal
    values (key order is irrelevant).  On [JsObject] this is equality. *)
Definition isDeepEqual (a b : JsObject) : bool := bool_decide (a = b).

(** ** Settings and the mode flags *)

Abbreviation Settings := (gmap string JsVal).

Definition gatherMode (settings : Settings) : JsVal :=
  getProp settings "gatherMode".
Definition auditMode (settings : Settings) : JsVal :=
  getProp settings "auditMode".
Definition output (settings : Settings) : JsVal :=
  getProp settings "output".
Definition locale (settings : Settings) : JsVal :=
  getProp settings "locale".

(** [Runner.shouldGather] :
    [!!(settings.gatherMode || settings.gatherMode === settings.auditMode)] *)
Definition shouldGather (settings : Settings) : bool :=
  truthy (gatherMode settings)
  || strictEq (gatherMode settings) (auditMode settings).

(** [Runner.shouldAudit] :
    [!!(settings.auditMode || settings.gatherMode === settings.auditMode)] *)
Definition shouldAudit (settings : Settings) : bool :=
  truthy (auditMode settings)
  || strictEq (gatherMode settings) (auditMode settings).

(** The values of a mode flag: its type is [boolean|string], and the flag
    may be missing from the settings. *)
Definition isModeValue (v : JsVal) : Prop :=
  match v with JUndefined | JBool _ | JStr _ => True | _ => False end.

(** ** Target identifiers *)

(** The part of a URL in front of its fragment: everything before the
    first [#]. *)
Fixpoint stripFragment (u : string) : string :=
  match u with
  | EmptyString => EmptyString
  | String c rest =>
      if Ascii.eqb c "#"%char then EmptyString
      else String c (stripFragment rest)
  end.

(** Modelled from the spec: [URL.equalWithExcludedFragments] of
    [lib/url-shim], which is not part of the sources at hand; the spec
    describes it as "an equality that ignores URL fragment differences".
    Two identifiers are equal when they agree once their fragments are
    removed. *)
Definition equalWithExcludedFragments (url1 url2 : string) : bool :=
  String.eqb (stripFragment url1) (stripFragment url2).

(** [filename.replace(/\.js$/, '')] *)
Definition dropJsSuffix (filename : string) : string :=
  let n := String.length filename in
  if (3 <=? n)%nat && String.eqb (String.substring (n - 3) 3 filename) ".js"
  then String.substring 0 (n - 3) filename
  else filename.

(** ** Computed artifacts *)

(** Modelled from the spec: the cache of one computed artifact, whose
    class ([gather/computed/computed-artifact.js]) is not part of the
    sources at hand.  The spec gives each name the life cycle
    [NotStarted -> InFlight -> Settled(value) | Settled(error)]; a promise
    is named by a number.  Starting a computation and caching its promise
    is one step here, so the spec's rejection of a request that a
    computation makes for its own name before its promise is cached has
    no counterpart. *)
Inductive CacheState : Type :=
  | NotStarted
  | InFlight (promise : nat)
  | Settled (promise : nat) (outcome : JsVal + JsVal).

(** The object built by [instantiateComputedArtifacts]: one instance per
    computed artifact, stored under the key ['request' + artifact.name]. *)
Abbreviation ComputedArtifacts := (gmap string CacheState).

(** A registry during a run: the instances, the log of the names whose
    compute function was started (oldest first) and the next free promise. *)
Record Registry : Type := {
  instances : ComputedArtifacts;
  computeLog : list string;
  nextPromise : nat
}.

(** What the callers of a registry do, in the order in which the event
    loop runs them: ask for an artifact, or see a computation settle. *)
Inductive RegistryEvent : Type :=
  | Request (key : string)
  | Settle (key : string) (outcome : JsVal + JsVal).

(** Modelled from the spec: [request(name)].  A cached promise (in flight
    or settled) is returned as it is; otherwise the computation is started
    and its promise cached at once.  [None] : no such request function. *)
Definition request (key : string) (reg : Registry)
  : option nat * Registry :=
  match instances reg !! key with
  | None => (None, reg)
  | Some NotStarted =>
      let p := nextPromise reg in
      (Some p,
       {| instances := <[key := InFlight p]> (instances reg);
          computeLog := computeLog reg ++ [key];
          nextPromise := S p |})
  | Some (InFlight p) => (Some p, reg)
  | Some (Settled p _) => (Some p, reg)
  end.

(** Modelled from the spec: the computation of [key] settles; its outcome
    (a value or a failure) becomes the terminal state of that name. *)
Definition settle (key : string) (outcome : JsVal + JsVal) (reg : Registry)
  : Registry :=
  match instances reg !! key with
  | Some (InFlight p) =>
      {| instances := <[key := Settled p outcome]> (instances reg);
         computeLog := computeLog reg;
         nextPromise := nextPromise reg |}
  | _ => reg
  end.

Definition registryStep (ev : RegistryEvent) (reg : Registry)
  : option nat * Registry :=
  match ev with
  | Request key => request key reg
  | Settle key outcome => (None, settle key outcome reg)
  end.

(** Runs a sequence of events; the answers are listed in the same order. *)
Fixpoint registryRun (evs : list RegistryEvent) (reg : Registry)
  : list (option nat) * Registry :=
  match evs with
  | [] => ([], reg)
  | ev :: rest =>
      let '(a, reg1) := registryStep ev reg in
      let '(answers, reg2) := registryRun rest reg1 in
      (a :: answers, reg2)
  end.

(** How often the compute function of [key] was started. *)
Definition computeCount (key : string) (reg : Registry) : nat :=
  length (filter (fun k => k = key) (computeLog reg)).

(** The registry of a run that has not asked for anything yet. *)
Definition freshRegistry (computed : ComputedArtifacts) : Registry :=
  {| instances := computed; computeLog := []; nextPromise := 0 |}.

(** ** The data a run handles *)

Section Model.
Context {Connection Driver Pass AuditDefn : Type}.

(** [config.passes], [config.audits], [config.categories] and
    [config.groups] are [None] when absent or [null]; an empty array or
    object is [Some] of it, and truthy. *)
Record Config : Type := {
  config_settings : Settings;
  config_passes : option (list Pass);
  config_audits : option (list AuditDefn);
  config_categories : option JsObject;
  config_groups : option JsVal
}.

Record RunOpts : Type := {
  config : Config;
  url : option string;
  driverMock : option Driver
}.

Record ArtifactsURL : Type := {
  requestedUrl : string;
  finalUrl : string
}.

Record Artifacts : Type := {
  URL : ArtifactsURL;
  artifacts_settings : option Settings;
  fetchTime : string;
  HostUserAgent : string;
  NetworkUserAgent : string;
  BenchmarkIndex : JsVal;
  LighthouseRunWarnings : option (list string);
  gathered : JsObject
}.

Record GatherOpts : Type := {
  gatherOpts_settings : Settings;
  gatherOpts_connection : Connection;
  gatherOpts_driverMock : option Driver
}.

(** [Object.assign({}, Runner.instantiateComputedArtifacts(), artifacts)] *)
Record FullArtifacts : Type := {
  computed : ComputedArtifacts;
  base : Artifacts
}.

Record AuditResult : Type := {
  audit_id : string;
  audit_score : JsVal;
  audit_rest : JsObject
}.

Record Environment : Type := {
  networkUserAgent : string;
  hostUserAgent : string;
  benchmarkIndex : JsVal
}.

Record I18n : Type := {
  rendererFormattedStrings : JsVal;
  icuMessagePaths : JsVal
}.

Record Timing : Type := { total : Z }.

Record LHR : Type := {
  lhr_userAgent : string;
  lhr_environment : Environment;
  lhr_lighthouseVersion : string;
  lhr_fetchTime : string;
  lhr_requestedUrl : string;
  lhr_finalUrl : string;
  lhr_runWarnings : list string;
  lhr_audits : gmap string AuditResult;
  lhr_configSettings : Settings;
  lhr_categories : JsObject;
  lhr_categoryGroups : option JsVal;
  lhr_timing : Timing;
  lhr_i18n : I18n
}.

Record RunnerResult : Type := {
  lhr : LHR;
  artifacts : Artifacts;
  report : JsVal
}.

(** What a run can throw: an [Error] the runner creates itself, or
    whatever a collaborator threw or rejected with. *)
Inductive Exn : Type :=
  | Error (message : string)
  | Rejected (reason : JsVal).

(** The calls a run makes to its collaborators, with their arguments. *)
Inductive Event : Type :=
  | Sentry_captureBreadcrumb (message category : string) (data : JsVal)
  | Sentry_captureException (err : Exn) (level : string)
  | GatherRunner_run_call (requestedUrl : string) (passes : list Pass)
      (gatherOpts : GatherOpts)
  | loadArtifacts_call (path : string)
  | saveArtifacts_call (artifacts : Artifacts) (path : string)
  | AuditRunner_run_call (settings : Settings) (audits : list AuditDefn)
      (fullArtifacts : FullArtifacts)
  | log_log (level message : string)
  | scoreAllCategories_call (categories : JsObject)
      (resultsById : gmap string AuditResult)
  | getRendererFormattedStrings_call (locale : JsVal)
  | replaceIcuMessageInstanceIds_call (lhr : LHR) (locale : JsVal)
  | generateReport_call (lhr : LHR) (output : JsVal).

(** The collaborators of the runner.  A call that can throw returns the
    thrown value on the left. *)
Record Collaborators : Type := {
  (** the value of the [k]-th call of [Date.now()] in a run *)
  Date_now : nat -> Z;
  Sentry_getContext : JsVal;
  process_cwd : string;
  path_resolve : string -> string -> string;
  path_join : string -> string -> string;
  lighthouseVersion : string;
  (** [new URL(u).href], [None] when the constructor throws *)
  URL_href : string -> option string;
  GatherRunner_run :
    string -> list Pass -> GatherOpts -> JsVal + Artifacts;
  assetSaver_loadArtifacts : string -> JsVal + Artifacts;
  assetSaver_saveArtifacts : Artifacts -> string -> JsVal + unit;
  AuditRunner_getComputedGathererList : list string;
  (** the [name] of the class exported by [./gather/computed/<file>] *)
  computedArtifactName : string -> string;
  (** the audit results and the warnings pushed to the sink *)
  AuditRunner_run :
    Settings -> list AuditDefn -> FullArtifacts ->
    JsVal + (list AuditResult * list string);
  ReportScoring_scoreAllCategories :
    JsObject -> gmap string AuditResult -> JsVal + JsObject;
  i18n_getRendererFormattedStrings : JsVal -> JsVal + JsVal;
  (** the record after the replacement in place, and the paths *)
  i18n_replaceIcuMessageInstanceIds : LHR -> JsVal -> JsVal + (LHR * JsVal);
  generateReport : LHR -> JsVal -> JsVal + JsVal
}.

(** ** The monad of a run: a trace of events and a result or an error *)

Definition M (A : Type) : Type := list Event * (Exn + A).

#[global] Instance M_ret : MRet M := fun A a => ([], inr a).

#[global] Instance M_bind : MBind M := fun A B f m =>
  match m with
  | (t, inl e) => (t, inl e)
  | (t, inr a) => let '(t', r) := f a in (t ++ t', r)
  end.

Definition throw {A : Type} (e : Exn) : M A := ([], inl e).

Definition emit (ev : Event) : M unit := ([ev], inr tt).

(** A call to a collaborator, recorded, that returns or throws. *)
Definition call {A : Type} (ev : Event) (r : JsVal + A) : M A :=
  ([ev], match r with inl v => inl (Rejected v) | inr a => inr a end).

(** [try { m } catch (err) { h err }] *)
Definition try_catch {A : Type} (m : M A) (h : Exn -> M A) : M A :=
  match m with
  | (t, inl e) => let '(t', r) := h e in (t ++ t', r)
  | (t, inr a) => (t, inr a)
  end.

Variable W : Collaborators.

(** ** [Runner._getArtifactsPath] *)
Definition _getArtifactsPath (settings : Settings) : string :=
  match auditMode settings with
  | JStr a => path_resolve W (process_cwd W) a
  | _ =>
      match gatherMode settings with
      | JStr g => path_resolve W (process_cwd W) g
      | _ => path_join W (process_cwd W) "latest-run"
      end
  end.

(** ** [Runner.instantiateComputedArtifacts] *)
Definition instantiateComputedArtifacts : ComputedArtifacts :=
  fold_left
    (fun computedArtifacts filename =>
       let filename := dropJsSuffix filename in
       let name := computedArtifactName W filename in
       <["request" +:+ name := NotStarted]> computedArtifacts)
    (AuditRunner_getComputedGathererList W) ∅.

(** The text of a template literal for an optional string. *)
Definition showUrl (u : option string) : string :=
  match u with Some s => s | None => "undefined" end.

Definition noPassesError : Exn := Error "No passes in config to run".
Definition noUrlError (u : option string) : Exn :=
  Error ("You must provide a url to the runner. '" +:+ showUrl u
         +:+ "' provided.").
Definition badUrlError : Exn :=
  Error "The url provided should have a proper protocol and hostname.".
Definition noAuditsError : Exn := Error "No audits in config to evaluate".
Definition differentUrlError : Exn :=
  Error "Cannot run audit mode on different URL than gatherers were".
Definition changedSettingsError : Exn :=
  Error "Cannot change settings between gathering and auditing".

(** ** [Runner.gatherArtifacts] *)
Definition gatherArtifacts (connection : Connection) (runOpts : RunOpts)
  : M Artifacts :=
  if negb (shouldGather (config_settings (config runOpts))) then
    let path := _getArtifactsPath (config_settings (config runOpts)) in
    call (loadArtifacts_call path) (assetSaver_loadArtifacts W path)
  else
    match config_passes (config runOpts) with
    | None => throw noPassesError
    | Some passes =>
        match url runOpts with
        | None => throw (noUrlError None)
        | Some u =>
            if (String.length u =? 0)%nat then throw (noUrlError (Some u))
            else
              match URL_href W u with
              | None => throw badUrlError
              | Some requestedUrl =>
                  let gatherOpts :=
                    {| gatherOpts_settings := config_settings (config runOpts);
                       gatherOpts_connection := connection;
                       gatherOpts_driverMock := driverMock runOpts |} in
                  call (GatherRunner_run_call requestedUrl passes gatherOpts)
                    (GatherRunner_run W requestedUrl passes gatherOpts)
              end
        end
    end.

(** [{gatherMode: undefined, auditMode: undefined, output: undefined}] *)
Definition overrides : JsObject :=
  <["gatherMode" := JUndefined]>
    (<["auditMode" := JUndefined]> (<["output" := JUndefined]> ∅)).

(** [runOpts.url && !URL.equalWithExcludedFragments(runOpts.url, requested)] *)
Definition urlDiffers (u : option string) (requested : string) : bool :=
  match u with
  | None => false
  | Some s =>
      negb (String.eqb s EmptyString)
      && negb (equalWithExcludedFragments s requested)
  end.

(** ** [Runner.auditArtifacts] *)
Definition auditArtifacts (artifacts : Artifacts) (runOpts : RunOpts)
  : M (list AuditResult * list string) :=
  let config := config runOpts in
  match config_audits config with
  | None => throw noAuditsError
  | Some audits =>
      if urlDiffers (url runOpts) (requestedUrl (URL artifacts))
      then throw differentUrlError
      else
        (match artifacts_settings artifacts with
         | Some gatherSettings =>
             let normalizedGatherSettings :=
               Object_assign ∅ [gatherSettings; overrides] in
             let normalizedAuditSettings :=
               Object_assign ∅ [config_settings config; overrides] in
             if negb (isDeepEqual normalizedGatherSettings
                        normalizedAuditSettings)
             then throw changedSettingsError
             else mret tt
         | None => mret tt
         end) ;;
        let fullArtifacts :=
          {| computed := instantiateComputedArtifacts; base := artifacts |} in
        call (AuditRunner_run_call (config_settings config) audits fullArtifacts)
          (AuditRunner_run W (config_settings config) audits fullArtifacts)
  end.

(** [for (const audit of auditResults) resultsById[audit.id] = audit] *)
Definition indexById (auditResults : list AuditResult)
  : gmap string AuditResult :=
  fold_left (fun resultsById audit => <[audit_id audit := audit]> resultsById)
    auditResults ∅.

(** [a && a.extra] for the Sentry context *)
Definition contextExtra (ctx : JsVal) : JsVal :=
  if truthy ctx then
    match ctx with JObj o => getProp o "extra" | _ => JUndefined end
  else ctx.

(** The body of the [try] block of [Runner.run]. *)
Definition runBody (connection : Connection) (runOpts : RunOpts)
  : M (option RunnerResult) :=
  let config := config runOpts in
  let settings := config_settings config in
  let startTime := Date_now W 0 in
  let sentryContext := Sentry_getContext W in
  emit (Sentry_captureBreadcrumb "Run started" "lifecycle"
          (contextExtra sentryContext)) ;;
  artifacts ← gatherArtifacts connection runOpts ;
  (if truthy (gatherMode settings) then
     let path := _getArtifactsPath settings in
     call (saveArtifacts_call artifacts path)
       (assetSaver_saveArtifacts W artifacts path)
   else mret tt) ;;
  if negb (shouldAudit settings) then mret None
  else
    '(auditResults, auditRunWarnings) ← auditArtifacts artifacts runOpts ;
    emit (log_log "status" "Generating results...") ;;
    let resultsById := indexById auditResults in
    categories ←
      match config_categories config with
      | Some cats =>
          call (scoreAllCategories_call cats resultsById)
            (ReportScoring_scoreAllCategories W cats resultsById)
      | None => mret ∅
      end ;
    let lighthouseRunWarnings :=
      [] ++ (auditRunWarnings
             ++ default [] (LighthouseRunWarnings artifacts)) in
    let timing := {| total := Date_now W 1 - startTime |} in
    strings ← call (getRendererFormattedStrings_call (locale settings))
                (i18n_getRendererFormattedStrings W (locale settings)) ;
    let lhr0 :=
      {| lhr_userAgent := HostUserAgent artifacts;
         lhr_environment :=
           {| networkUserAgent := NetworkUserAgent artifacts;
              hostUserAgent := HostUserAgent artifacts;
              benchmarkIndex := BenchmarkIndex artifacts |};
         lhr_lighthouseVersion := lighthouseVersion W;
         lhr_fetchTime := fetchTime artifacts;
         lhr_requestedUrl := requestedUrl (URL artifacts);
         lhr_finalUrl := finalUrl (URL artifacts);
         lhr_runWarnings := lighthouseRunWarnings;
         lhr_audits := resultsById;
         lhr_configSettings := settings;
         lhr_categories := categories;
         lhr_categoryGroups := config_groups config;
         lhr_timing := timing;
         lhr_i18n :=
           {| rendererFormattedStrings := strings;
              icuMessagePaths := JObj ∅ |} |} in
    '(lhr1, paths) ←
      call (replaceIcuMessageInstanceIds_call lhr0 (locale settings))
        (i18n_replaceIcuMessageInstanceIds W lhr0 (locale settings)) ;
    let lhr2 :=
      {| lhr_userAgent := lhr_userAgent lhr1;
         lhr_environment := lhr_environment lhr1;
         lhr_lighthouseVersion := lhr_lighthouseVersion lhr1;
         lhr_fetchTime := lhr_fetchTime lhr1;
         lhr_requestedUrl := lhr_requestedUrl lhr1;
         lhr_finalUrl := lhr_finalUrl lhr1;
         lhr_runWarnings := lhr_runWarnings lhr1;
         lhr_audits := lhr_audits lhr1;
         lhr_configSettings := lhr_configSettings lhr1;
         lhr_categories := lhr_categories lhr1;
         lhr_categoryGroups := lhr_categoryGroups lhr1;
         lhr_timing := lhr_timing lhr1;
         lhr_i18n :=
           {| rendererFormattedStrings :=
                rendererFormattedStrings (lhr_i18n lhr1);
              icuMessagePaths := paths |} |} in
    report ← call (generateReport_call lhr2 (output settings))
               (generateReport W lhr2 (output settings)) ;
    mret (Some {| lhr := lhr2; artifacts := artifacts; report := report |}).

(** ** [Runner.run] *)
Definition run (connection : Connection) (runOpts : RunOpts)
  : M (option RunnerResult) :=
  try_catch (runBody connection runOpts)
    (fun err => emit (Sentry_captureException err "fatal") ;; throw err).

End Model.

(** ** Classes of events and views of a registry *)

Section Events.
Context {Connection Driver Pass AuditDefn : Type}.

Abbreviation Ev := (@Event Connection Driver Pass AuditDefn).

(** a report to the telemetry sink *)
Definition isCaptureException (ev : Ev) : Prop :=
  match ev with Sentry_captureException _ _ => True | _ => False end.

Definition isCaptureExceptionb (ev : Ev) : bool :=
  match ev with Sentry_captureException _ _ => true | _ => false end.

(** how many reports to the telemetry sink a trace holds *)
Definition captureCount (t : list Ev) : nat :=
  length (List.filter isCaptureExceptionb t).

(** a write of artifacts by the asset saver *)
Definition isSave (ev : Ev) : Prop :=
  match ev with saveArtifacts_call _ _ => True | _ => False end.

(** a call to the gather runner, which drives the browser *)
Definition isGatherRun (ev : Ev) : Prop :=
  match ev with GatherRunner_run_call _ _ _ => True | _ => False end.

(** a call to the audit runner *)
Definition isAuditRun (ev : Ev) : Prop :=
  match ev with AuditRunner_run_call _ _ _ => True | _ => False end.

(** any step of the audit phase or of the construction of the result:
    auditing, scoring, localisation, report generation *)
Definition isResultStep (ev : Ev) : Prop :=
  match ev with
  | AuditRunner_run_call _ _ _ | log_log _ _ | scoreAllCategories_call _ _
  | getRendererFormattedStrings_call _
  | replaceIcuMessageInstanceIds_call _ _ | generateReport_call _ _ => True
  | _ => False
  end.

End Events.

(** The promise cached for a key, if its computation was started. *)
Definition promiseOf (reg : Registry) (key : string) : option nat :=
  match instances reg !! key with
  | Some (InFlight p) | Some (Settled p _) => Some p
  | _ => None
  end.

(** The terminal outcome cached for a key, once settled. *)
Definition outcomeOf (reg : Registry) (key : string)
  : option (JsVal + JsVal) :=
  match instances reg !! key with
  | Some (Settled _ o) => Some o
  | _ => None
  end.

(** The log of a registry has no name twice, and holds exactly the names
    whose promise is cached. *)
Definition registryInv (reg : Registry) : Prop :=
  NoDup (computeLog reg) /\
  forall key, key ∈ computeLog reg <-> is_Some (promiseOf reg key).

(** The three properties left out of the comparison of settings. *)
Definition isRunModeKey (k : string) : Prop :=
  k = "gatherMode" \/ k = "auditMode" \/ k = "output".

(** ** A concrete world, to run the model on *)

Module Demo.

Definition exampleUrl : string := "http://example.com/".

Definition artifactsFor (requested : string) (s : option Settings)
  : Artifacts :=
  {| URL := {| requestedUrl := requested; finalUrl := requested |};
     artifacts_settings := s;
     fetchTime := "2018-06-01T00:00:00.000Z";
     HostUserAgent := "Chrome/67";
     NetworkUserAgent := "Chrome/67 Mobile";
     BenchmarkIndex := JNum 1000;
     LighthouseRunWarnings := Some ["slow connection"];
     gathered := ∅ |}.

Definition auditA : AuditResult :=
  {| audit_id := "auditA"; audit_score := JNum 1; audit_rest := ∅ |}.

(** Collaborators that always succeed; the stored artifacts carry the
    settings [stored]. *)
Definition world (stored : option Settings)
  : @Collaborators unit unit string string :=
  {| Date_now := fun k => (1000 + 5 * Z.of_nat k)%Z;
     Sentry_getContext := JUndefined;
     process_cwd := "/home/user";
     path_resolve := fun cwd p => cwd +:+ "/" +:+ p;
     path_join := fun cwd p => cwd +:+ "/" +:+ p;
     lighthouseVersion := "3.0.0";
     URL_href := fun u =>
       if String.prefix "http://" u then Some u else None;
     GatherRunner_run := fun u _ opts =>
       inr (artifactsFor u (Some (gatherOpts_settings opts)));
     assetSaver_loadArtifacts := fun _ => inr (artifactsFor exampleUrl stored);
     assetSaver_saveArtifacts := fun _ _ => inr tt;
     AuditRunner_getComputedGathererList :=
       ["speedline.js"; "trace-of-tab.js"];
     computedArtifactName := fun f =>
       if String.eqb f "speedline" then "Speedline" else "TraceOfTab";
     AuditRunner_run := fun _ _ _ => inr ([auditA], ["audit warning"]);
     ReportScoring_scoreAllCategories := fun cats _ =>
       inr ((fun _ => JObj {[ "score" := JNum 1 ]}) <$> cats);
     i18n_getRendererFormattedStrings := fun _ => inr (JObj ∅);
     i18n_replaceIcuMessageInstanceIds := fun l _ => inr (l, JObj ∅);
     generateReport := fun _ _ => inr (JStr "<html>") |}.

Definition settingsOf (g a : JsVal) : Settings :=
  <["gatherMode" := g]>
    (<["auditMode" := a]>
       (<["output" := JStr "json"]> (<["throttlingMethod" := JStr "devtools"]> ∅))).

Definition cat1 : JsObject :=
  {[ "cat1" := JObj {[ "auditRefs" :=
                         JArr [JObj (<["id" := JStr "auditA"]>
                                       {[ "weight" := JNum 1 ]})] ]} ]}.

Definition configOf (s : Settings) (passes audits : option (list string))
  : @Config string string :=
  {| config_settings := s;
     config_passes := passes;
     config_audits := audits;
     config_categories := Some cat1;
     config_groups := None |}.

Definition optsOf (s : Settings) (passes audits : option (list string))
    (u : option string) : @RunOpts unit string string :=
  {| config := configOf s passes audits; url := u; driverMock := None |}.

(** the default full run: both flags [false] *)
Definition fullRun : @RunOpts unit string string :=
  optsOf (settingsOf (JBool false) (JBool false))
    (Some ["defaultPass"]) (Some ["auditA"]) (Some exampleUrl).

(** [-G=./out] *)
Definition gatherOnly : @RunOpts unit string string :=
  optsOf (settingsOf (JStr "./out") (JBool false))
    (Some ["defaultPass"]) (Some ["auditA"]) (Some exampleUrl).

(** [-A] *)
Definition auditOnly : @RunOpts unit string string :=
  optsOf (settingsOf (JBool false) (JBool true))
    None (Some ["auditA"]) (Some "http://example.com/#top").

(** a gather flag that is the empty string *)
Definition emptyGatherMode : @RunOpts unit string string :=
  optsOf (settingsOf (JStr EmptyString) (JBool false))
    (Some ["defaultPass"]) (Some ["auditA"]) (Some exampleUrl).

(** a config whose lists of passes and audits are empty *)
Definition emptyLists : @RunOpts unit string string :=
  optsOf (settingsOf (JBool false) (JBool false))
    (Some []) (Some []) (Some exampleUrl).

(** a config without audits *)
Definition noAudits : @RunOpts unit string string :=
  optsOf (settingsOf (JBool false) (JBool false))
    (Some ["defaultPass"]) None (Some exampleUrl).

End Demo.

(** ** The order of the calls of a run, and what a run throws *)

Section Phases.
Context {Connection Driver Pass AuditDefn : Type}.

(** The place of a call in the sequence of [Runner.run]: the breadcrumb,
    the artifacts (gathered or loaded), their save, the audits, the
    status line, the scoring, the two steps of localisation, the report,
    and the report of a failure to Sentry. *)
Definition stage (ev : @Event Connection Driver Pass AuditDefn) : nat :=
  match ev with
  | Sentry_captureBreadcrumb _ _ _ => 0
  | GatherRunner_run_call _ _ _ | loadArtifacts_call _ => 1
  | saveArtifacts_call _ _ => 2
  | AuditRunner_run_call _ _ _ => 3
  | log_log _ _ => 4
  | scoreAllCategories_call _ _ => 5
  | getRendererFormattedStrings_call _ => 6
  | replaceIcuMessageInstanceIds_call _ _ => 7
  | generateReport_call _ _ => 8
  | Sentry_captureException _ _ => 9
  end.

(** The stages of a trace go up strictly and stay within [lo, hi). *)
Definition inOrder (lo hi : nat)
    (t : list (@Event Connection Driver Pass AuditDefn)) : Prop :=
  StronglySorted lt (stage <$> t) /\
  Forall (fun ev => lo <= stage ev < hi) t.

(** Whatever a computation throws satisfies [P]. *)
Definition throwsOnly (P : @Exn -> Prop) {A : Type}
    (m : @M Connection Driver Pass AuditDefn A) : Prop :=
  forall e, snd m = inl e -> P e.

(** The errors [gatherArtifacts] creates for a run with the url [u]. *)
Definition gatherErrors (u : option string) : list Exn :=
  [noPassesError; noUrlError u; badUrlError].

(** The errors [auditArtifacts] creates. *)
Definition auditErrors : list Exn :=
  [noAuditsError; differentUrlError; changedSettingsError].
End Phases.

(** [typeof v === 'boolean'] *)
Definition isBoolean (v : JsVal) : bool :=
  match v with JBool _ => true | _ => false end.

(** More inputs for the concrete world. *)
Module Cases.

(** [-G -A] : gather, save, audit *)
Definition gatherAndAudit : @RunOpts unit string string :=
  Demo.optsOf (Demo.settingsOf (JBool true) (JBool true))
    (Some ["defaultPass"]) (Some ["auditA"]) (Some Demo.exampleUrl).

(** a gathering run without passes *)
Definition noPasses : @RunOpts unit string string :=
  Demo.optsOf (Demo.settingsOf (JBool false) (JBool false))
    None (Some ["auditA"]) (Some Demo.exampleUrl).

(** [-G=./g -A=./a] *)
Definition twoDirectories : @RunOpts unit string string :=
  Demo.optsOf (Demo.settingsOf (JStr "./g") (JStr "./a"))
    (Some ["defaultPass"]) (Some ["auditA"]) (Some Demo.exampleUrl).

(** [-A=./out], to read what [Demo.gatherOnly] wrote *)
Definition auditFrom : @RunOpts unit string string :=
  Demo.optsOf (Demo.settingsOf (JBool false) (JStr "./out"))
    None (Some ["auditA"]) None.

(** the world of [Demo], except that nothing can be saved *)
Definition readOnlyWorld : @Collaborators unit unit string string :=
  let w := Demo.world None in
  {| Date_now := Date_now w;
     Sentry_getContext := Sentry_getContext w;
     process_cwd := process_cwd w;
     path_resolve := path_resolve w;
     path_join := path_join w;
     lighthouseVersion := lighthouseVersion w;
     URL_href := URL_href w;
     GatherRunner_run := GatherRunner_run w;
     assetSaver_loadArtifacts := assetSaver_loadArtifacts w;
     assetSaver_saveArtifacts := fun _ _ => inl (JStr "EACCES");
     AuditRunner_getComputedGathererList :=
       AuditRunner_getComputedGathererList w;
     computedArtifactName := computedArtifactName w;
     AuditRunner_run := AuditRunner_run w;
     ReportScoring_scoreAllCategories := ReportScoring_scoreAllCategories w;
     i18n_getRendererFormattedStrings := i18n_getRendererFormattedStrings w;
     i18n_replaceIcuMessageInstanceIds :=
       i18n_replaceIcuMessageInstanceIds w;
     generateReport := generateReport w |}.




Definition auditB : AuditResult :=
  {| audit_id := "auditB"; audit_score := JNum 0; audit_rest := ∅ |}.

End Cases.

(** * Properties *)

(** ** The mode flags *)

Lemma strictEq_mode (a b : JsVal) :
  isModeValue a -> isModeValue b -> (strictEq a b = true <-> a = b).
Proof.
  destruct a as [| | x | | x | |], b as [| | y | | y | |]; simpl;
    try tauto; intros _ _; try (split; [discriminate | congruence]).
  - rewrite Bool.eqb_true_iff. split; congruence.
  - rewrite String.eqb_eq. split; congruence.
Qed.

Lemma truthy_nonempty_string (p : string) : p <> EmptyString -> truthy (JStr p) = true.
Proof. intros Hp. simpl. by destruct p. Qed.

(** C1, as amended: on settings whose two mode flags are booleans or
    strings (or are missing), [shouldGather] holds exactly when
    [gatherMode] is truthy or the two flags are equal, and [shouldAudit]
    exactly when [auditMode] is truthy or the two flags are equal.  With
    both flags unset (both [false], or both missing) both hold; with
    [gatherMode] a non-empty string and [auditMode] unset only
    [shouldGather] holds; with [auditMode] [true] and [gatherMode] unset
    only [shouldAudit] holds. *)
Theorem shouldGather_shouldAudit_spec (settings : Settings) :
  (isModeValue (gatherMode settings) -> isModeValue (auditMode settings) ->
   (shouldGather settings = true <->
      truthy (gatherMode settings) = true
      \/ gatherMode settings = auditMode settings) /\
   (shouldAudit settings = true <->
      truthy (auditMode settings) = true
      \/ gatherMode settings = auditMode settings)) /\
  ((gatherMode settings = JBool false /\ auditMode settings = JBool false)
   \/ (gatherMode settings = JUndefined /\ auditMode settings = JUndefined)
   -> shouldGather settings = true /\ shouldAudit settings = true) /\
  (forall p, p <> EmptyString -> gatherMode settings = JStr p ->
     auditMode settings = JBool false \/ auditMode settings = JUndefined ->
     shouldGather settings = true /\ shouldAudit settings = false) /\
  (auditMode settings = JBool true ->
   gatherMode settings = JBool false \/ gatherMode settings = JUndefined ->
   shouldGather settings = false /\ shouldAudit settings = true).
Proof.
  unfold shouldGather, shouldAudit. split; [| split; [| split]].
  - intros Hg Ha. rewrite !orb_true_iff, (strictEq_mode _ _ Hg Ha). tauto.
  - intros [[-> ->] | [-> ->]]; by split.
  - intros p Hp -> Ha. rewrite (truthy_nonempty_string p Hp).
    destruct Ha as [-> | ->]; by split.
  - intros -> [-> | ->]; by split.
Qed.

Lemma shouldGather_shouldAudit_spec_witness :
  shouldGather (Demo.settingsOf (JStr "./out") (JBool false)) = true /\
  shouldAudit (Demo.settingsOf (JStr "./out") (JBool false)) = false.
Proof.
  destruct (shouldGather_shouldAudit_spec
              (Demo.settingsOf (JStr "./out") (JBool false)))
    as (_ & _ & H & _).
  apply (H "./out"); [discriminate | reflexivity | by left].
Defined.

(** C1 as stated fails for the empty string: it is a string, and a falsy
    one, so with an empty [gatherMode] and [auditMode = false] nothing is
    to be gathered. *)
Lemma shouldGather_empty_string_counterexample :
  isString (gatherMode (Demo.settingsOf (JStr EmptyString) (JBool false))) = true /\
  auditMode (Demo.settingsOf (JStr EmptyString) (JBool false)) = JBool false /\
  shouldGather (Demo.settingsOf (JStr EmptyString) (JBool false)) = false.
Proof. repeat split. Qed.

(** ** Comparing settings *)

(** Two objects that are not equal differ at some property. *)
Lemma object_neq_lookup (a b : JsObject) :
  a <> b -> exists k, a !! k <> b !! k.
Proof.
  intros Hne.
  destruct (decide (set_Exists (fun k => a !! k <> b !! k) (dom a ∪ dom b)))
    as [Hex | Hno]; [destruct Hex as (k & _ & Hk); by exists k |].
  exfalso. apply Hne, map_eq. intros k.
  destruct (decide (a !! k = b !! k)) as [|Hk]; [done |].
  destruct (decide (k ∈ dom a ∪ dom b)) as [Hin | Hout].
  - exfalso. apply Hno. by exists k.
  - apply not_elem_of_union in Hout as [Ha Hb].
    apply not_elem_of_dom in Ha, Hb. congruence.
Qed.

Lemma Object_assign_overrides (s : Settings) (k : string) :
  Object_assign ∅ [s; overrides] !! k =
  if decide (isRunModeKey k) then Some JUndefined else s !! k.
Proof.
  unfold Object_assign. simpl.
  rewrite !lookup_union, lookup_empty.
  destruct (decide (isRunModeKey k)) as [[-> | [-> | ->]] | Hk].
  - by destruct (s !! "gatherMode").
  - by destruct (s !! "auditMode").
  - by destruct (s !! "output").
  - unfold isRunModeKey in Hk. unfold overrides.
    rewrite !lookup_insert_ne, lookup_empty by naive_solver.
    by destruct (s !! k).
Qed.

(** The comparison of [auditArtifacts] fails exactly when the two settings
    differ at a property that is not a run-mode property. *)
Lemma normalized_settings_differ (gs cs : Settings) :
  isDeepEqual (Object_assign ∅ [gs; overrides])
              (Object_assign ∅ [cs; overrides]) = false
  <-> exists k, ~ isRunModeKey k /\ gs !! k <> cs !! k.
Proof.
  unfold isDeepEqual. rewrite bool_decide_eq_false. split.
  - intros Hne. apply object_neq_lookup in Hne as [k Hk].
    rewrite !Object_assign_overrides in Hk.
    case_decide; [done | by exists k].
  - intros (k & Hk & Hne) Heq. apply Hne.
    assert (H := f_equal (fun m : JsObject => m !! k) Heq). cbv beta in H.
    rewrite !Object_assign_overrides in H. by case_decide.
Qed.

(** ** Fragments *)

Lemma stripFragment_app_hash (b f : string) :
  stripFragment (b +:+ "#" +:+ f) = stripFragment b.
Proof.
  induction b as [|c b IH]; simpl; [done |].
  destruct (Ascii.eqb c "#"); [done | by rewrite IH].
Qed.

Section Proofs.
Context {Connection Driver Pass AuditDefn : Type}.
Variable W : @Collaborators Connection Driver Pass AuditDefn.

Abbreviation Run := (@M Connection Driver Pass AuditDefn).
Abbreviation Ev := (@Event Connection Driver Pass AuditDefn).

(** *** Equations of the monad *)

Lemma bind_inr {A B} (m : Run A) (f : A -> Run B) t b :
  m ≫= f = (t, inr b) ->
  exists t1 a t2, m = (t1, inr a) /\ f a = (t2, inr b) /\ t = t1 ++ t2.
Proof.
  unfold mbind, M_bind. destruct m as [t1 [e|a]]; [discriminate|].
  destruct (f a) as [t2 r] eqn:Hf. intros [= <- ->]. eauto 6.
Qed.

Lemma bind_ok {A B} (m : Run A) (f : A -> Run B) t a :
  m = (t, inr a) -> m ≫= f = (t ++ fst (f a), snd (f a)).
Proof. intros ->. unfold mbind, M_bind. by destruct (f a). Qed.

Lemma bind_fail {A B} (m : Run A) (f : A -> Run B) t e :
  m = (t, inl e) -> m ≫= f = (t, inl e).
Proof. by intros ->. Qed.

Lemma call_inr {A} (ev : Ev) (r : JsVal + A) t a :
  call ev r = (t, inr a) -> t = [ev] /\ r = inr a.
Proof. unfold call. destruct r; intros [= <-]; by subst. Qed.

Lemma call_not_Error {A} (ev : Ev) (r : JsVal + A) msg :
  snd (call ev r) <> inl (Error msg).
Proof. unfold call. by destruct r. Qed.

(** *** The gather phase *)

(** C5, as amended: when gathering is required, [gatherArtifacts] throws
    before any call to the gather runner if [config.passes] is absent
    ('No passes in config to run'); otherwise if the url is absent or
    empty ('You must provide a url'); otherwise if the url does not
    parse ('proper protocol and hostname'); otherwise the gather runner
    is called once, with the canonical url, the passes and the settings.
    An empty list of passes is not refused. *)
Theorem gatherArtifacts_validation
    (connection : Connection) (runOpts : RunOpts) :
  shouldGather (config_settings (config runOpts)) = true ->
  (config_passes (config runOpts) = None ->
   gatherArtifacts W connection runOpts = ([], inl noPassesError)) /\
  (forall passes, config_passes (config runOpts) = Some passes ->
     url runOpts = None \/ url runOpts = Some EmptyString ->
     gatherArtifacts W connection runOpts
     = ([], inl (noUrlError (url runOpts)))) /\
  (forall passes u, config_passes (config runOpts) = Some passes ->
     url runOpts = Some u -> u <> EmptyString -> URL_href W u = None ->
     gatherArtifacts W connection runOpts = ([], inl badUrlError)) /\
  (forall passes u href, config_passes (config runOpts) = Some passes ->
     url runOpts = Some u -> u <> EmptyString -> URL_href W u = Some href ->
     let gatherOpts :=
       {| gatherOpts_settings := config_settings (config runOpts);
          gatherOpts_connection := connection;
          gatherOpts_driverMock := driverMock runOpts |} in
     gatherArtifacts W connection runOpts
     = call (GatherRunner_run_call href passes gatherOpts)
         (GatherRunner_run W href passes gatherOpts)).
Proof.
  intros Hg. unfold gatherArtifacts. rewrite Hg. simpl negb. cbv iota.
  repeat split.
  - by intros ->.
  - intros passes -> [-> | ->]; reflexivity.
  - intros passes u -> -> Hu ->. destruct u; [done | reflexivity].
  - intros passes u href -> -> Hu ->. destruct u; [done | reflexivity].
Qed.

(** *** The audit phase *)

(** The audit phase once its three checks have passed. *)
Lemma auditArtifacts_checked (artifacts : Artifacts) (runOpts : RunOpts)
    audits :
  config_audits (config runOpts) = Some audits ->
  urlDiffers (url runOpts) (requestedUrl (URL artifacts)) = false ->
  match artifacts_settings artifacts with
  | Some gs =>
      isDeepEqual (Object_assign ∅ [gs; overrides])
        (Object_assign ∅ [config_settings (config runOpts); overrides])
      = true
  | None => True
  end ->
  let fullArtifacts :=
    {| computed := instantiateComputedArtifacts W; base := artifacts |} in
  auditArtifacts W artifacts runOpts
  = call (AuditRunner_run_call (config_settings (config runOpts)) audits
            fullArtifacts)
      (AuditRunner_run W (config_settings (config runOpts)) audits
         fullArtifacts).
Proof.
  intros Ha Hu Hs. unfold auditArtifacts. rewrite Ha, Hu.
  destruct (artifacts_settings artifacts) as [gs|].
  - rewrite Hs. simpl negb. cbv iota. unfold call, mbind, M_bind, mret, M_ret.
    by destruct (AuditRunner_run _ _ _ _).
  - unfold call, mbind, M_bind, mret, M_ret.
    by destruct (AuditRunner_run _ _ _ _).
Qed.

(** C2: with audits configured and the url check passed, the audit phase
    goes on to the audit runner when the artifacts carry no settings;
    when they do, it throws 'Cannot change settings between gathering
    and auditing' exactly when the recorded and the current settings
    differ at a property other than [gatherMode], [auditMode] and
    [output], and goes on to the audit runner otherwise. *)
Theorem auditArtifacts_settings_check
    (artifacts : Artifacts) (runOpts : RunOpts) audits :
  config_audits (config runOpts) = Some audits ->
  urlDiffers (url runOpts) (requestedUrl (URL artifacts)) = false ->
  let fullArtifacts :=
    {| computed := instantiateComputedArtifacts W; base := artifacts |} in
  let evaluate :=
    call (AuditRunner_run_call (config_settings (config runOpts)) audits
            fullArtifacts)
      (AuditRunner_run W (config_settings (config runOpts)) audits
         fullArtifacts) in
  (artifacts_settings artifacts = None ->
   auditArtifacts W artifacts runOpts = evaluate) /\
  (forall gs, artifacts_settings artifacts = Some gs ->
     (snd (auditArtifacts W artifacts runOpts) = inl changedSettingsError
      <-> exists k, ~ isRunModeKey k
                    /\ gs !! k <> config_settings (config runOpts) !! k) /\
     ((forall k, ~ isRunModeKey k ->
                 gs !! k = config_settings (config runOpts) !! k) ->
      auditArtifacts W artifacts runOpts = evaluate)).
Proof.
  intros Ha Hu fullArtifacts evaluate. split.
  - intros Hs. apply auditArtifacts_checked; [done | done | by rewrite Hs].
  - intros gs Hs.
    destruct (isDeepEqual (Object_assign ∅ [gs; overrides])
                (Object_assign ∅ [config_settings (config runOpts); overrides]))
      eqn:Heq.
    + assert (Hrun : auditArtifacts W artifacts runOpts = evaluate).
      { apply auditArtifacts_checked; [done | done | by rewrite Hs]. }
      split; [| done]. rewrite Hrun. split.
      * intros Hbad. by apply call_not_Error in Hbad.
      * intros Hex. apply normalized_settings_differ in Hex. congruence.
    + pose proof (proj1 (normalized_settings_differ _ _) Heq) as Hex.
      assert (Hrun : auditArtifacts W artifacts runOpts
                     = ([], inl changedSettingsError)).
      { unfold auditArtifacts. by rewrite Ha, Hu, Hs, Heq. }
      split; [by rewrite Hrun |].
      intros Hall. destruct Hex as (k & Hk & Hne). by specialize (Hall k Hk).
Qed.

(** C3: with audits configured and a non-empty url given to the run, the
    audit phase throws 'Cannot run audit mode on different URL than
    gatherers were' exactly when the url and [artifacts.URL.requestedUrl]
    differ once their fragments are removed; two urls that differ only
    in their fragment pass; without a url (absent or empty) the check is
    skipped. *)
Lemma urlDiffers_spec (u requested : string) :
  u <> EmptyString ->
  (urlDiffers (Some u) requested = true
   <-> stripFragment u <> stripFragment requested).
Proof.
  intros Hu. unfold urlDiffers, equalWithExcludedFragments.
  assert (String.eqb u EmptyString = false) as -> by by apply String.eqb_neq.
  simpl. rewrite negb_true_iff. apply String.eqb_neq.
Qed.

Lemma auditArtifacts_url_passed (artifacts : Artifacts) (runOpts : RunOpts) :
  urlDiffers (url runOpts) (requestedUrl (URL artifacts)) = false ->
  snd (auditArtifacts W artifacts runOpts) <> inl differentUrlError.
Proof.
  intros Hu. unfold auditArtifacts. rewrite Hu.
  destruct (config_audits (config runOpts)) as [audits|]; [| done].
  destruct (artifacts_settings artifacts) as [gs|].
  - destruct (isDeepEqual _ _); simpl negb; cbv iota; [| done].
    unfold call, mbind, M_bind, mret, M_ret.
    by destruct (AuditRunner_run _ _ _ _).
  - unfold call, mbind, M_bind, mret, M_ret.
    by destruct (AuditRunner_run _ _ _ _).
Qed.

(** C3: with audits configured and a non-empty url given to the run, the
    audit phase throws 'Cannot run audit mode on different URL than
    gatherers were', before any call to the audit runner, exactly when
    the url and [artifacts.URL.requestedUrl] differ once their fragments
    are removed; two urls that differ only in their fragment pass the
    check; without a url (absent or empty) the check is skipped. *)
Theorem auditArtifacts_url_check
    (artifacts : Artifacts) (runOpts : RunOpts) audits :
  config_audits (config runOpts) = Some audits ->
  (forall u, url runOpts = Some u -> u <> EmptyString ->
     (stripFragment u <> stripFragment (requestedUrl (URL artifacts)) ->
      auditArtifacts W artifacts runOpts = ([], inl differentUrlError)) /\
     (snd (auditArtifacts W artifacts runOpts) = inl differentUrlError ->
      stripFragment u <> stripFragment (requestedUrl (URL artifacts)))) /\
  (forall b f1 f2, url runOpts = Some (b +:+ "#" +:+ f1) ->
     requestedUrl (URL artifacts) = b +:+ "#" +:+ f2 ->
     snd (auditArtifacts W artifacts runOpts) <> inl differentUrlError) /\
  (url runOpts = None \/ url runOpts = Some EmptyString ->
     snd (auditArtifacts W artifacts runOpts) <> inl differentUrlError).
Proof.
  intros Ha. split; [| split].
  - intros u Hu Hne. split.
    + intros Hdiff. apply (urlDiffers_spec u _ Hne) in Hdiff.
      unfold auditArtifacts. by rewrite Ha, Hu, Hdiff.
    + intros Hthrown.
      destruct (urlDiffers (url runOpts) (requestedUrl (URL artifacts)))
        eqn:Hd.
      * rewrite Hu in Hd. by apply (urlDiffers_spec u _ Hne).
      * by apply auditArtifacts_url_passed in Hd.
  - intros b f1 f2 Hu Hr. apply auditArtifacts_url_passed.
    rewrite Hu, Hr. unfold urlDiffers, equalWithExcludedFragments.
    rewrite !stripFragment_app_hash, String.eqb_refl. simpl.
    apply andb_false_r.
  - intros [Hu | Hu]; apply auditArtifacts_url_passed; by rewrite Hu.
Qed.

(** *** Traces *)

Lemma Forall_bind {A B} (P : Ev -> Prop) (m : Run A) (f : A -> Run B) :
  Forall P (fst m) ->
  (forall a, snd m = inr a -> Forall P (fst (f a))) ->
  Forall P (fst (m ≫= f)).
Proof.
  intros Hm Hf. unfold mbind, M_bind. destruct m as [t [e|a]]; [done |].
  specialize (Hf a eq_refl). destruct (f a) as [t' r]. simpl in *.
  by apply Forall_app.
Qed.

Lemma snd_bind_fail {A B} (m : Run A) (f : A -> Run B) e :
  snd m = inl e -> snd (m ≫= f) = inl e.
Proof. destruct m as [t r]. simpl. by intros ->. Qed.

Lemma snd_bind_ok {A B} (m : Run A) (f : A -> Run B) a :
  snd m = inr a -> snd (m ≫= f) = snd (f a).
Proof.
  destruct m as [t r]. simpl. intros ->. unfold mbind, M_bind.
  by destruct (f a).
Qed.

Lemma elem_of_bind_l {A B} (m : Run A) (f : A -> Run B) (ev : Ev) :
  ev ∈ fst m -> ev ∈ fst (m ≫= f).
Proof.
  destruct m as [t [e|a]]; [done |]. unfold mbind, M_bind.
  destruct (f a). simpl. intros H. apply elem_of_app. by left.
Qed.

Lemma elem_of_bind_r {A B} (m : Run A) (f : A -> Run B) (ev : Ev) a :
  snd m = inr a -> ev ∈ fst (f a) -> ev ∈ fst (m ≫= f).
Proof.
  destruct m as [t r]. simpl. intros ->. unfold mbind, M_bind.
  destruct (f a). simpl. intros H. apply elem_of_app. by right.
Qed.

Lemma Forall_ret {A} (P : Ev -> Prop) (a : A) :
  Forall P (fst (mret a : Run A)).
Proof. constructor. Qed.

Lemma Forall_throw {A} (P : Ev -> Prop) (e : Exn) :
  Forall P (fst (throw e : Run A)).
Proof. constructor. Qed.

Lemma Forall_emit (P : Ev -> Prop) (ev : Ev) :
  P ev -> Forall P (fst (emit ev)).
Proof. intros H. by repeat constructor. Qed.

Lemma Forall_call {A} (P : Ev -> Prop) (ev : Ev) (r : JsVal + A) :
  P ev -> Forall P (fst (call ev r)).
Proof. intros H. by repeat constructor. Qed.

(** Walks through a computation of the monad, leaving one goal for every
    event it can emit. *)
Ltac walk_trace :=
  repeat first
    [ apply Forall_ret
    | apply Forall_throw
    | apply Forall_emit
    | apply Forall_call
    | apply Forall_bind; [| intros ? ? ]
    | match goal with
      | |- Forall _ (fst (if ?c then _ else _)) => destruct c eqn:?
      | |- Forall _ (fst (match ?x with _ => _ end)) => destruct x eqn:?
      | |- Forall _ (fst (let '(_, _) := ?x in _)) => destruct x eqn:?
      end
    | progress cbv zeta ].

Lemma gatherArtifacts_trace (P : Ev -> Prop) connection runOpts :
  (forall path, P (loadArtifacts_call path)) ->
  (forall u passes opts, P (GatherRunner_run_call u passes opts)) ->
  Forall P (fst (gatherArtifacts W connection runOpts)).
Proof. intros Hl Hg. unfold gatherArtifacts. walk_trace; auto. Qed.

Lemma auditArtifacts_trace (P : Ev -> Prop) artifacts runOpts :
  (forall s a f, P (AuditRunner_run_call s a f)) ->
  Forall P (fst (auditArtifacts W artifacts runOpts)).
Proof. intros Ha. unfold auditArtifacts. walk_trace; auto. Qed.

(** The events of the [try] block, phase by phase: what holds of the
    breadcrumb, of the events of the gather phase, of the save (made
    only under a truthy [gatherMode], with the gathered artifacts and
    the artifacts path), of the events of the audit phase and of the
    later steps (both only when [shouldAudit]) holds of every event. *)
Lemma runBody_trace (P : Ev -> Prop) connection runOpts :
  let settings := config_settings (config runOpts) in
  (forall data, P (Sentry_captureBreadcrumb "Run started" "lifecycle" data)) ->
  Forall P (fst (gatherArtifacts W connection runOpts)) ->
  (forall a, snd (gatherArtifacts W connection runOpts) = inr a ->
     truthy (gatherMode settings) = true ->
     P (saveArtifacts_call a (_getArtifactsPath W settings))) ->
  (shouldAudit settings = true ->
   forall a, Forall P (fst (auditArtifacts W a runOpts))) ->
  (shouldAudit settings = true ->
   (forall l m, P (log_log l m)) /\
   (forall c r, P (scoreAllCategories_call c r)) /\
   (forall l, P (getRendererFormattedStrings_call l)) /\
   (forall l loc, P (replaceIcuMessageInstanceIds_call l loc)) /\
   (forall l o, P (generateReport_call l o))) ->
  Forall P (fst (runBody W connection runOpts)).
Proof.
  intros settings Hbc Hg Hsave Haudit Hrest. unfold runBody.
  apply Forall_bind; [apply Forall_emit, Hbc | intros _ _].
  apply Forall_bind; [exact Hg | intros a Ha].
  apply Forall_bind.
  { destruct (truthy _) eqn:Ht; [| apply Forall_ret].
    apply Forall_call. by apply Hsave. }
  intros _ _.
  destruct (shouldAudit _) eqn:Hsa; simpl negb; cbv iota;
    [| apply Forall_ret].
  specialize (Haudit eq_refl). specialize (Hrest eq_refl).
  destruct Hrest as (Hlog & Hscore & Hstr & Hicu & Hrep).
  apply Forall_bind; [apply Haudit | intros [results warnings] _].
  walk_trace; auto.
Qed.

(** The [try] block never reports to Sentry itself. *)
Lemma runBody_no_capture connection runOpts :
  Forall (fun ev => ~ isCaptureException ev)
    (fst (runBody W connection runOpts)).
Proof.
  apply runBody_trace; simpl; try tauto.
  - apply gatherArtifacts_trace; simpl; tauto.
  - intros _ a. apply auditArtifacts_trace; simpl; tauto.
Qed.

Lemma run_trace (P : Ev -> Prop) connection runOpts :
  Forall P (fst (runBody W connection runOpts)) ->
  (forall e level, P (Sentry_captureException e level)) ->
  Forall P (fst (run W connection runOpts)).
Proof.
  intros Hb Hc. unfold run, try_catch.
  destruct (runBody W connection runOpts) as [t [e|r]]; simpl in *;
    [| done].
  apply Forall_app. split; [done |]. by repeat constructor.
Qed.

Lemma run_trace_incl connection runOpts (ev : Ev) :
  ev ∈ fst (runBody W connection runOpts) ->
  ev ∈ fst (run W connection runOpts).
Proof.
  unfold run, try_catch.
  destruct (runBody W connection runOpts) as [t [e|r]]; simpl; [| done].
  intros H. apply elem_of_app. by left.
Qed.

Lemma run_ok connection runOpts t r :
  runBody W connection runOpts = (t, inr r) ->
  run W connection runOpts = (t, inr r).
Proof. unfold run. by intros ->. Qed.

Lemma run_fail connection runOpts t e :
  runBody W connection runOpts = (t, inl e) ->
  run W connection runOpts
  = (t ++ [Sentry_captureException e "fatal"], inl e).
Proof. unfold run. by intros ->. Qed.

(** How often a trace reports to Sentry. *)
Lemma captures_none (t : list Ev) :
  Forall (fun ev => ~ isCaptureException ev) t ->
  forall e level, Sentry_captureException e level ∉ t.
Proof.
  intros Ht e level Hin. rewrite Forall_forall in Ht.
  by apply (Ht _ Hin).
Qed.

Lemma captureCount_none (t : list Ev) :
  Forall (fun ev => ~ isCaptureException ev) t -> captureCount t = 0.
Proof.
  unfold captureCount. induction 1 as [|ev t Hev Ht IH]; [done |].
  simpl. destruct ev; simpl in *; try done; tauto.
Qed.

Lemma captureCount_snoc (t : list Ev) e level :
  captureCount (t ++ [Sentry_captureException e level])
  = S (captureCount t).
Proof.
  unfold captureCount. rewrite List.filter_app, length_app. simpl. lia.
Qed.

(** C9: a run that throws [e] has reported exactly one exception to
    Sentry, as the last event of the run, and that report carries [e]
    itself, tagged 'fatal'; [e] is the error its [try] block threw, with
    the same events before it; the caller gets the error and no result.
    Every error of the [try] block is thrown on by the run.  A run that
    returns reports nothing. *)
Theorem run_reports_and_rethrows (connection : Connection) (runOpts : RunOpts) :
  (forall t e, run W connection runOpts = (t, inl e) ->
     captureCount t = 1 /\
     exists t0,
       runBody W connection runOpts = (t0, inl e) /\
       t = t0 ++ [Sentry_captureException e "fatal"] /\
       (forall e' level, Sentry_captureException e' level ∉ t0)) /\
  (forall t0 e, runBody W connection runOpts = (t0, inl e) ->
     run W connection runOpts
     = (t0 ++ [Sentry_captureException e "fatal"], inl e)) /\
  (forall t r, run W connection runOpts = (t, inr r) ->
     runBody W connection runOpts = (t, inr r) /\
     captureCount t = 0 /\
     forall e level, Sentry_captureException e level ∉ t).
Proof.
  pose proof (runBody_no_capture connection runOpts) as Hquiet.
  destruct (runBody W connection runOpts) as [t0 [e0 | r0]] eqn:Hbody;
    simpl in Hquiet.
  - rewrite (run_fail _ _ _ _ Hbody). split; [| split].
    + intros t e [= <- <-]. split.
      { by rewrite captureCount_snoc, captureCount_none. }
      exists t0. split; [done |]. split; [done |].
      by apply captures_none.
    + by intros ? ? [= <- <-].
    + intros t r [=].
  - rewrite (run_ok _ _ _ _ Hbody). split; [| split].
    + intros t e [=].
    + intros ? ? [=].
    + intros ? ? [= <- <-]. split; [done |].
      split; [by apply captureCount_none | by apply captures_none].
Qed.


(** *** Saving the artifacts *)

Lemma gatherArtifacts_no_save connection runOpts :
  Forall (fun ev => ~ isSave ev) (fst (gatherArtifacts W connection runOpts)).
Proof. apply gatherArtifacts_trace; simpl; tauto. Qed.

(** The save is made once gathering has returned, under a truthy
    [gatherMode]. *)
Lemma runBody_saves connection runOpts a :
  let settings := config_settings (config runOpts) in
  truthy (gatherMode settings) = true ->
  snd (gatherArtifacts W connection runOpts) = inr a ->
  saveArtifacts_call a (_getArtifactsPath W settings)
    ∈ fst (runBody W connection runOpts).
Proof.
  intros settings Ht Ha. unfold runBody.
  eapply elem_of_bind_r; [reflexivity |].
  eapply elem_of_bind_r; [exact Ha |].
  apply elem_of_bind_l. fold settings. rewrite Ht.
  apply list_elem_of_singleton. reflexivity.
Qed.

(** Every save of a run is the one of line 60: it needs a truthy
    [gatherMode] and the artifacts the gather phase returned. *)
Lemma run_save_origin connection runOpts :
  let settings := config_settings (config runOpts) in
  Forall (fun ev => forall a p, ev = saveArtifacts_call a p ->
            truthy (gatherMode settings) = true /\
            snd (gatherArtifacts W connection runOpts) = inr a /\
            p = _getArtifactsPath W settings)
    (fst (run W connection runOpts)).
Proof.
  intros settings. apply run_trace; [| done].
  apply runBody_trace; try done.
  - apply gatherArtifacts_trace; done.
  - intros a Ha Ht a' p [= <- <-]. done.
  - intros _ a. apply auditArtifacts_trace; done.
Qed.

(** C10: a run writes artifacts exactly when [settings.gatherMode] is
    truthy and the gather phase has returned them, and then to the
    artifacts path.  In a default run (both modes [false], or both
    absent) [shouldGather] holds, the gather runner is called once the
    request is validated, and nothing is saved. *)
Theorem save_iff_gatherMode (connection : Connection) (runOpts : RunOpts) :
  let settings := config_settings (config runOpts) in
  (forall a p,
      saveArtifacts_call a p ∈ fst (run W connection runOpts)
      <-> truthy (gatherMode settings) = true /\
          snd (gatherArtifacts W connection runOpts) = inr a /\
          p = _getArtifactsPath W settings) /\
  ((gatherMode settings = JBool false /\ auditMode settings = JBool false)
   \/ (gatherMode settings = JUndefined /\ auditMode settings = JUndefined)
   ->
   shouldGather settings = true /\
   (forall a p, saveArtifacts_call a p ∉ fst (run W connection runOpts)) /\
   (forall passes u href,
       config_passes (config runOpts) = Some passes ->
       url runOpts = Some u -> u <> EmptyString -> URL_href W u = Some href ->
       exists opts,
         GatherRunner_run_call href passes opts
           ∈ fst (run W connection runOpts))).
Proof.
  intros settings.
  assert (Hiff : forall a p,
      saveArtifacts_call a p ∈ fst (run W connection runOpts)
      <-> truthy (gatherMode settings) = true /\
          snd (gatherArtifacts W connection runOpts) = inr a /\
          p = _getArtifactsPath W settings).
  { intros a p. split.
    - intros Hin. pose proof (run_save_origin connection runOpts) as Hall.
      rewrite Forall_forall in Hall. by apply (Hall _ Hin).
    - intros (Ht & Ha & ->). apply run_trace_incl. by apply runBody_saves. }
  split; [exact Hiff |].
  intros Hdefault.
  assert (Hsg : shouldGather settings = true).
  { unfold shouldGather. fold settings.
    destruct Hdefault as [[-> ->] | [-> ->]]; reflexivity. }
  assert (Hfalsy : truthy (gatherMode settings) = false).
  { destruct Hdefault as [[-> _] | [-> _]]; reflexivity. }
  split; [exact Hsg |]. split.
  - intros a p Hin. apply Hiff in Hin as (Ht & _). congruence.
  - intros passes u href Hp Hu Hne Hhref.
    eexists. apply run_trace_incl. unfold runBody.
    eapply elem_of_bind_r; [reflexivity |].
    apply elem_of_bind_l.
    unfold gatherArtifacts. fold settings. rewrite Hsg, Hp, Hu, Hhref.
    simpl negb. cbv iota.
    destruct u; [done |]. simpl. apply list_elem_of_singleton. reflexivity.
Qed.

(** *** A run that only gathers *)

Lemma shouldAudit_false_gathers (settings : Settings) :
  shouldAudit settings = false -> truthy (gatherMode settings) = true ->
  shouldGather settings = true.
Proof. intros _ Ht. unfold shouldGather. by rewrite Ht. Qed.

(** C7, as amended: in a run with [shouldAudit] false and a truthy
    [gatherMode], artifacts are gathered, no step of the audit phase or
    of the construction of the result is made, and no result is ever
    returned; once gathering has returned, the artifacts are handed to
    the asset saver with the artifacts path, and if that save returns
    the run returns [undefined], the save being its last event. *)
Theorem run_gather_only (connection : Connection) (runOpts : RunOpts) :
  let settings := config_settings (config runOpts) in
  shouldAudit settings = false ->
  truthy (gatherMode settings) = true ->
  shouldGather settings = true /\
  Forall (fun ev => ~ isResultStep ev) (fst (run W connection runOpts)) /\
  (forall r, snd (run W connection runOpts) <> inr (Some r)) /\
  (forall a, snd (gatherArtifacts W connection runOpts) = inr a ->
     saveArtifacts_call a (_getArtifactsPath W settings)
       ∈ fst (run W connection runOpts)) /\
  (forall tg a, gatherArtifacts W connection runOpts = (tg, inr a) ->
     assetSaver_saveArtifacts W a (_getArtifactsPath W settings) = inr tt ->
     run W connection runOpts
     = (Sentry_captureBreadcrumb "Run started" "lifecycle"
          (contextExtra (Sentry_getContext W))
          :: tg ++ [saveArtifacts_call a (_getArtifactsPath W settings)],
        inr None)).
Proof.
  intros settings Hsa Ht.
  split; [by apply shouldAudit_false_gathers |]. split; [| split; [| split]].
  - apply run_trace; [| simpl; tauto].
    apply runBody_trace; fold settings; simpl; try tauto; try congruence.
    apply gatherArtifacts_trace; simpl; tauto.
  - intros r. unfold run, runBody. fold settings. rewrite Hsa, Ht.
    simpl negb. cbv iota zeta.
    unfold try_catch, mbind, M_bind, emit, call, mret, M_ret, throw.
    destruct (gatherArtifacts W connection runOpts) as [tg [e|a]]; [done |].
    by destruct (assetSaver_saveArtifacts W a _).
  - intros a Ha. apply run_trace_incl. by apply runBody_saves.
  - intros tg a Hg Hs. unfold run, runBody. fold settings.
    rewrite Hsa, Ht. simpl negb. cbv iota zeta.
    unfold try_catch, mbind, M_bind, emit, call, mret, M_ret, throw.
    rewrite Hg. fold settings. by rewrite Hs.
Qed.

(** *** A run without audits *)

Lemma auditArtifacts_no_audits (artifacts : Artifacts) (runOpts : RunOpts) :
  config_audits (config runOpts) = None ->
  auditArtifacts W artifacts runOpts = ([], inl noAuditsError).
Proof. unfold auditArtifacts. by intros ->. Qed.

Lemma snd_run_fail connection runOpts e :
  snd (runBody W connection runOpts) = inl e ->
  snd (run W connection runOpts) = inl e.
Proof.
  unfold run, try_catch.
  destruct (runBody W connection runOpts) as [t r]. simpl. by intros ->.
Qed.

(** C6, as amended: when [config.audits] is absent the audit phase
    throws 'No audits in config to evaluate' at once; no run with such a
    config ever calls the audit runner, and a run that has to audit,
    once its artifacts are gathered (and saved, when they have to be),
    throws that error.  An empty list of audits is not refused. *)
Theorem run_requires_audits (connection : Connection) (runOpts : RunOpts) :
  let settings := config_settings (config runOpts) in
  config_audits (config runOpts) = None ->
  (forall a, auditArtifacts W a runOpts = ([], inl noAuditsError)) /\
  Forall (fun ev => ~ isAuditRun ev) (fst (run W connection runOpts)) /\
  (shouldAudit settings = true ->
   forall a, snd (gatherArtifacts W connection runOpts) = inr a ->
     (truthy (gatherMode settings) = true ->
      assetSaver_saveArtifacts W a (_getArtifactsPath W settings) = inr tt) ->
     snd (run W connection runOpts) = inl noAuditsError).
Proof.
  intros settings Hnone. split; [| split].
  - intros a. by apply auditArtifacts_no_audits.
  - apply run_trace; [| simpl; tauto].
    apply runBody_trace; simpl; try tauto.
    + apply gatherArtifacts_trace; simpl; tauto.
    + intros _ a. by rewrite auditArtifacts_no_audits.
  - intros Hsa a Ha Hsave. apply snd_run_fail. unfold runBody.
    erewrite snd_bind_ok; [| reflexivity].
    erewrite snd_bind_ok; [| exact Ha].
    erewrite (snd_bind_ok _ _ tt).
    + fold settings. rewrite Hsa. simpl negb. cbv iota.
      apply snd_bind_fail. by rewrite auditArtifacts_no_audits.
    + fold settings. destruct (truthy (gatherMode settings)); [| done].
      unfold call. by rewrite Hsave.
Qed.

(** *** The result of a full run *)

Lemma fold_insert_lookup (results : list AuditResult)
    (m : gmap string AuditResult) (id : string) :
  fold_left (fun acc r => <[audit_id r := r]> acc) results m !! id
  = match last (filter (fun r => audit_id r = id) results) with
    | Some r => Some r
    | None => m !! id
    end.
Proof.
  revert m. induction results as [|r results IH]; intros m; [done |].
  simpl fold_left. rewrite IH, filter_cons.
  destruct (decide (audit_id r = id)) as [Heq | Hne].
  - rewrite last_cons. destruct (last (filter _ results)); [done |].
    by rewrite <- Heq, lookup_insert_eq.
  - destruct (last (filter _ results)); [done |].
    by rewrite lookup_insert_ne.
Qed.

(** [resultsById] is keyed by id and the last result of an id wins. *)
Lemma indexById_lookup (results : list AuditResult) (id : string) :
  indexById results !! id
  = last (filter (fun r => audit_id r = id) results).
Proof.
  unfold indexById. rewrite fold_insert_lookup, lookup_empty.
  by destruct (last _).
Qed.

Lemma run_inr connection runOpts t r :
  run W connection runOpts = (t, inr r) ->
  runBody W connection runOpts = (t, inr r).
Proof.
  unfold run, try_catch.
  destruct (runBody W connection runOpts) as [t0 [e|r0]]; [done |].
  by intros [= <- <-].
Qed.


(** *** The registry handed to the audit runner *)

(** Whenever a run calls the audit runner, the computed artifacts it
    hands over are the ones [instantiateComputedArtifacts] has just
    made. *)
Lemma run_audit_registry connection runOpts :
  Forall (fun ev => forall s a f, ev = AuditRunner_run_call s a f ->
            computed f = instantiateComputedArtifacts W)
    (fst (run W connection runOpts)).
Proof.
  apply run_trace; [| done].
  apply runBody_trace; try done.
  - apply gatherArtifacts_trace; done.
  - intros _ a. unfold auditArtifacts. walk_trace.
    by intros s a' f [= <- <- <-].
Qed.

End Proofs.

(** ** The registry of computed artifacts *)

Section RegistryProofs.

Implicit Types (reg : Registry) (key : string) (ev : RegistryEvent).

Lemma filter_key_notin key (l : list string) :
  key ∉ l -> filter (fun k => k = key) l = [].
Proof.
  induction l as [|k l IH]; [done |]. intros Hnotin.
  apply not_elem_of_cons in Hnotin as [Hne Hl].
  rewrite filter_cons, decide_False by done. by apply IH.
Qed.

Lemma filter_key_NoDup key (l : list string) :
  NoDup l ->
  length (filter (fun k => k = key) l) <= 1 /\
  (key ∈ l -> length (filter (fun k => k = key) l) = 1).
Proof.
  induction 1 as [|k l Hk Hl IH]; [split; [simpl; lia | by intros ?%elem_of_nil] |].
  rewrite filter_cons. destruct (decide (k = key)) as [-> | Hne].
  - rewrite (filter_key_notin key l Hk). simpl. split; [lia | done].
  - destruct IH as [IH1 IH2]. split; [done |].
    intros [? | Hin]%elem_of_cons; [congruence | by apply IH2].
Qed.

Lemma settle_log key outcome reg :
  computeLog (settle key outcome reg) = computeLog reg /\
  nextPromise (settle key outcome reg) = nextPromise reg.
Proof.
  unfold settle. by destruct (instances reg !! key) as [[| p | p o]|].
Qed.

Lemma promiseOf_request_self key reg :
  fst (request key reg) = promiseOf (snd (request key reg)) key.
Proof.
  unfold request, promiseOf.
  destruct (instances reg !! key) as [[| p | p o]|] eqn:Hk; simpl;
    rewrite ?lookup_insert_eq, ?Hk; done.
Qed.

Lemma promiseOf_request_other key key' reg :
  key <> key' ->
  promiseOf (snd (request key reg)) key' = promiseOf reg key'.
Proof.
  intros Hne. unfold request, promiseOf.
  destruct (instances reg !! key) as [[| p | p o]|]; simpl;
    rewrite ?lookup_insert_ne by done; done.
Qed.

Lemma promiseOf_settle key key' outcome reg :
  promiseOf (settle key outcome reg) key' = promiseOf reg key'.
Proof.
  unfold settle, promiseOf.
  destruct (instances reg !! key) as [[| p | p o]|] eqn:Hk; simpl; try done.
  destruct (decide (key = key')) as [<- | Hne].
  - by rewrite lookup_insert_eq, Hk.
  - by rewrite lookup_insert_ne.
Qed.

Lemma request_started key reg :
  is_Some (instances reg !! key) ->
  is_Some (promiseOf (snd (request key reg)) key).
Proof.
  intros [s Hs]. rewrite <- promiseOf_request_self. unfold request.
  rewrite Hs. destruct s; simpl; eauto.
Qed.

Lemma promiseOf_step ev reg key p :
  promiseOf reg key = Some p ->
  promiseOf (snd (registryStep ev reg)) key = Some p.
Proof.
  intros Hp. destruct ev as [k | k o]; simpl.
  - destruct (decide (k = key)) as [-> | Hne].
    + rewrite <- promiseOf_request_self. unfold request, promiseOf in *.
      by destruct (instances reg !! key) as [[| q | q o]|].
    + by rewrite promiseOf_request_other.
  - by rewrite promiseOf_settle.
Qed.

Lemma unregistered_step ev reg key :
  instances reg !! key = None ->
  instances (snd (registryStep ev reg)) !! key = None.
Proof.
  intros Hk. destruct ev as [k | k o]; simpl.
  - unfold request.
    destruct (instances reg !! k) as [[| q | q o]|] eqn:Hq; simpl; try done.
    rewrite lookup_insert_ne; [done | congruence].
  - unfold settle.
    destruct (instances reg !! k) as [[| q | q o']|] eqn:Hq; simpl; try done.
    rewrite lookup_insert_ne; [done | congruence].
Qed.

Lemma registered_step ev reg key :
  is_Some (instances reg !! key) ->
  is_Some (instances (snd (registryStep ev reg)) !! key).
Proof.
  intros Hk. destruct ev as [k | k o]; simpl.
  - unfold request.
    destruct (instances reg !! k) as [[| q | q o]|] eqn:Hq; simpl; try done.
    destruct (decide (k = key)) as [-> | Hne];
      [rewrite lookup_insert_eq; eauto | by rewrite lookup_insert_ne].
  - unfold settle.
    destruct (instances reg !! k) as [[| q | q o']|] eqn:Hq; simpl; try done.
    destruct (decide (k = key)) as [-> | Hne];
      [rewrite lookup_insert_eq; eauto | by rewrite lookup_insert_ne].
Qed.

Lemma registryInv_step ev reg :
  registryInv reg -> registryInv (snd (registryStep ev reg)).
Proof.
  intros [Hnd Hlog]. destruct ev as [k | k o]; simpl.
  - unfold request. destruct (instances reg !! k) as [[| q | q o]|] eqn:Hq;
      simpl; try done.
    assert (Hk : k ∉ computeLog reg).
    { rewrite Hlog. unfold promiseOf. rewrite Hq. by intros [? ?]. }
    split; simpl.
    + apply NoDup_app. repeat split; [done | | apply NoDup_singleton].
      intros x Hx ->%list_elem_of_singleton. done.
    + intros key. rewrite elem_of_app, list_elem_of_singleton, Hlog.
      unfold promiseOf. simpl.
      destruct (decide (k = key)) as [-> | Hne].
      * rewrite lookup_insert_eq, Hq. split; [eauto | by right].
      * rewrite lookup_insert_ne by done. split; [| by left].
        intros [? | ?]; [done | congruence].
  - split; [by rewrite (proj1 (settle_log k o reg)) |].
    intros key. rewrite promiseOf_settle, <- Hlog.
    by rewrite (proj1 (settle_log k o reg)).
Qed.

Lemma registryRun_cons ev evs reg :
  registryRun (ev :: evs) reg
  = (fst (registryStep ev reg)
       :: fst (registryRun evs (snd (registryStep ev reg))),
     snd (registryRun evs (snd (registryStep ev reg)))).
Proof.
  simpl. destruct (registryStep ev reg) as [a reg1]. simpl.
  by destruct (registryRun evs reg1).
Qed.

Lemma registryInv_run evs reg :
  registryInv reg -> registryInv (snd (registryRun evs reg)).
Proof.
  revert reg. induction evs as [|ev evs IH]; intros reg Hinv; [done |].
  rewrite registryRun_cons. simpl. by apply IH, registryInv_step.
Qed.

Lemma promiseOf_run evs reg key p :
  promiseOf reg key = Some p ->
  promiseOf (snd (registryRun evs reg)) key = Some p.
Proof.
  revert reg. induction evs as [|ev evs IH]; intros reg Hp; [done |].
  rewrite registryRun_cons. simpl. by apply IH, promiseOf_step.
Qed.

Lemma unregistered_run evs reg key :
  instances reg !! key = None ->
  promiseOf (snd (registryRun evs reg)) key = None.
Proof.
  revert reg. induction evs as [|ev evs IH]; intros reg Hk.
  - simpl. unfold promiseOf. by rewrite Hk.
  - rewrite registryRun_cons. simpl. by apply IH, unregistered_step.
Qed.

(** A promise handed out for a key is the one the registry still holds
    for it at the end of the run. *)
Lemma request_answer_final evs reg key :
  promiseOf (snd (registryRun evs (snd (request key reg)))) key
  = fst (request key reg).
Proof.
  rewrite promiseOf_request_self.
  destruct (promiseOf (snd (request key reg)) key) as [p|] eqn:Hp.
  - by apply promiseOf_run.
  - apply unregistered_run.
    destruct (instances reg !! key) as [s|] eqn:Hk.
    + assert (Hs : is_Some (promiseOf (snd (request key reg)) key))
        by (apply request_started; eauto).
      rewrite Hp in Hs. by destruct Hs.
    + unfold request. by rewrite Hk.
Qed.

Lemma registryRun_answers evs reg key i :
  evs !! i = Some (Request key) ->
  fst (registryRun evs reg) !! i
  = Some (promiseOf (snd (registryRun evs reg)) key).
Proof.
  revert reg i. induction evs as [|ev evs IH]; intros reg i Hi; [done |].
  rewrite registryRun_cons. destruct i as [|i]; simpl in *.
  - injection Hi as ->. simpl. by rewrite request_answer_final.
  - by apply IH.
Qed.

Lemma registryRun_started evs reg key :
  Request key ∈ evs -> is_Some (instances reg !! key) ->
  is_Some (promiseOf (snd (registryRun evs reg)) key).
Proof.
  revert reg. induction evs as [|ev evs IH]; intros reg Hin Hreg.
  - by apply elem_of_nil in Hin.
  - rewrite registryRun_cons. simpl.
    apply elem_of_cons in Hin as [<- | Hin].
    + simpl. destruct (request_started key reg Hreg) as [p Hp].
      rewrite (promiseOf_run _ _ _ _ Hp). eauto.
    + apply IH; [done | by apply registered_step].
Qed.

Lemma outcomeOf_step ev reg key o :
  outcomeOf reg key = Some o ->
  outcomeOf (snd (registryStep ev reg)) key = Some o.
Proof.
  unfold outcomeOf. intros Ho.
  destruct (instances reg !! key) as [[| q | q o']|] eqn:Hk; try done.
  destruct ev as [k | k o'']; simpl.
  - unfold request.
    destruct (instances reg !! k) as [[| q' | q' o3]|] eqn:Hq; simpl;
      rewrite ?Hk; try done.
    rewrite lookup_insert_ne; [by rewrite Hk | congruence].
  - unfold settle.
    destruct (instances reg !! k) as [[| q' | q' o3]|] eqn:Hq; simpl;
      rewrite ?Hk; try done.
    rewrite lookup_insert_ne; [by rewrite Hk | congruence].
Qed.

Lemma outcomeOf_run evs reg key o :
  outcomeOf reg key = Some o ->
  outcomeOf (snd (registryRun evs reg)) key = Some o.
Proof.
  revert reg. induction evs as [|ev evs IH]; intros reg Ho; [done |].
  rewrite registryRun_cons. simpl. by apply IH, outcomeOf_step.
Qed.

Lemma outcomeOf_started reg key o :
  outcomeOf reg key = Some o -> is_Some (promiseOf reg key).
Proof.
  unfold outcomeOf, promiseOf.
  destruct (instances reg !! key) as [[| q | q o']|]; try done; eauto.
Qed.

Lemma computeCount_inv reg key :
  registryInv reg ->
  computeCount key reg <= 1 /\
  (is_Some (promiseOf reg key) -> computeCount key reg = 1).
Proof.
  intros [Hnd Hlog]. unfold computeCount.
  destruct (filter_key_NoDup key _ Hnd) as [Hle Hone].
  split; [done |]. intros Hp. by apply Hone, Hlog.
Qed.

Lemma registryInv_fresh (computed : ComputedArtifacts) :
  (forall k s, computed !! k = Some s -> s = NotStarted) ->
  registryInv (freshRegistry computed).
Proof.
  intros Hall. split; [apply NoDup_nil_2 |].
  intros key. simpl. unfold promiseOf. simpl. split.
  - by intros ?%elem_of_nil.
  - destruct (computed !! key) as [s|] eqn:Hk; [| by intros [? ?]].
    rewrite (Hall _ _ Hk). by intros [? ?].
Qed.

End RegistryProofs.

Section ComputedArtifactsOfARun.
Context {Connection Driver Pass AuditDefn : Type}.
Variable W : @Collaborators Connection Driver Pass AuditDefn.

(** Every instance made by [instantiateComputedArtifacts] is new. *)
Lemma instantiateComputedArtifacts_fresh k s :
  instantiateComputedArtifacts W !! k = Some s -> s = NotStarted.
Proof.
  unfold instantiateComputedArtifacts.
  generalize (AuditRunner_getComputedGathererList W).
  assert (Hempty : forall k s, (∅ : ComputedArtifacts) !! k = Some s
                               -> s = NotStarted) by done.
  revert Hempty. generalize (∅ : ComputedArtifacts).
  intros m Hm l. revert m Hm k s.
  induction l as [|f l IH]; intros m Hm k s; simpl; [apply Hm |].
  apply IH. intros k' s'.
  rewrite lookup_insert. case_decide; [by intros [= <-] | apply Hm].
Qed.

(** C4: in a run, the audit runner gets the registry that
    [instantiateComputedArtifacts] has just made, and whatever its
    callers do with it, in whatever order, the compute function of a key
    is started at most once, and exactly once if the key is registered
    and requested; every request for the key is answered with the same
    promise, the one the registry holds at the end; and once the
    computation has settled, its outcome stays, later requests are
    answered with that same promise and nothing is computed again. *)
Theorem computed_artifact_computed_once
    (evs : list RegistryEvent) (key : string) :
  let start := freshRegistry (instantiateComputedArtifacts W) in
  let answers := fst (registryRun evs start) in
  let final := snd (registryRun evs start) in
  (forall connection runOpts s a f,
      AuditRunner_run_call s a f ∈ fst (run W connection runOpts) ->
      freshRegistry (computed f) = start) /\
  computeCount key final <= 1 /\
  (Request key ∈ evs ->
   is_Some (instantiateComputedArtifacts W !! key) ->
   computeCount key final = 1) /\
  (forall i j, evs !! i = Some (Request key) ->
     evs !! j = Some (Request key) ->
     answers !! i = answers !! j
     /\ answers !! i = Some (promiseOf final key)) /\
  (forall o later, outcomeOf final key = Some o ->
     let final' := snd (registryRun later final) in
     outcomeOf final' key = Some o /\
     computeCount key final' = computeCount key final /\
     forall i, later !! i = Some (Request key) ->
       fst (registryRun later final) !! i = Some (promiseOf final key)).
Proof.
  intros start answers final.
  assert (Hstart : registryInv start)
    by apply registryInv_fresh, instantiateComputedArtifacts_fresh.
  assert (Hfinal : registryInv final) by by apply registryInv_run.
  split; [| split; [| split; [| split]]].
  - intros connection runOpts s a f Hin.
    pose proof (run_audit_registry W connection runOpts) as Hall.
    rewrite Forall_forall in Hall. unfold start.
    by rewrite (Hall _ Hin s a f eq_refl).
  - apply (computeCount_inv final key Hfinal).
  - intros Hin Hreg. apply (computeCount_inv final key Hfinal).
    by apply registryRun_started.
  - intros i j Hi Hj. unfold answers, final.
    by rewrite !(registryRun_answers evs start key).
  - intros o later Ho final'.
    pose proof (outcomeOf_started _ _ _ Ho) as [p Hp].
    assert (Hp' : promiseOf final' key = Some p) by by apply promiseOf_run.
    assert (Hfinal' : registryInv final') by by apply registryInv_run.
    split; [by apply outcomeOf_run |]. split.
    + rewrite (proj2 (computeCount_inv final key Hfinal)) by eauto.
      apply (computeCount_inv final' key Hfinal'). eauto.
    + intros i Hi. rewrite (registryRun_answers later final key i Hi).
      fold final'. by rewrite Hp, Hp'.
Qed.

End ComputedArtifactsOfARun.

(** ** The properties on the concrete world *)

Lemma auditArtifacts_settings_check_witness :
  exists k, ~ isRunModeKey k /\
    Demo.settingsOf (JBool true) (JBool false) !! k
    <> <["throttlingMethod" := JStr "simulate"]>
         (Demo.settingsOf (JBool false) (JBool true)) !! k.
Proof.
  pose (stored := Demo.settingsOf (JBool true) (JBool false)).
  pose (current := <["throttlingMethod" := JStr "simulate"]>
                     (Demo.settingsOf (JBool false) (JBool true))).
  destruct (auditArtifacts_settings_check (Demo.world None)
              (Demo.artifactsFor Demo.exampleUrl (Some stored))
              (Demo.optsOf current None (Some ["auditA"]) None)
              ["auditA"] eq_refl eq_refl) as [_ H].
  destruct (H stored eq_refl) as [[Hthrown _] _].
  apply Hthrown. reflexivity.
Defined.

Lemma auditArtifacts_url_check_witness :
  snd (auditArtifacts (Demo.world None)
         (Demo.artifactsFor "http://example.com/#bottom" None) Demo.auditOnly)
  <> inl differentUrlError.
Proof.
  destruct (auditArtifacts_url_check (Demo.world None)
              (Demo.artifactsFor "http://example.com/#bottom" None)
              Demo.auditOnly ["auditA"] eq_refl) as (_ & H & _).
  apply (H "http://example.com/" "top" "bottom"); reflexivity.
Defined.

Lemma computed_artifact_computed_once_witness :
  computeCount "requestSpeedline"
    (snd (registryRun
            [Request "requestSpeedline"; Request "requestTraceOfTab";
             Request "requestSpeedline"; Settle "requestSpeedline" (inr JNull);
             Request "requestSpeedline"]
            (freshRegistry (instantiateComputedArtifacts (Demo.world None)))))
  = 1.
Proof.
  destruct (computed_artifact_computed_once (Demo.world None)
              [Request "requestSpeedline"; Request "requestTraceOfTab";
               Request "requestSpeedline"; Settle "requestSpeedline" (inr JNull);
               Request "requestSpeedline"]
              "requestSpeedline") as (_ & _ & H & _).
  apply H.
  - apply list_elem_of_here.
  - simpl. eauto.
Defined.

Lemma gatherArtifacts_validation_witness :
  fst (gatherArtifacts (Demo.world None) tt Demo.fullRun)
  = [GatherRunner_run_call Demo.exampleUrl ["defaultPass"]
       {| gatherOpts_settings := Demo.settingsOf (JBool false) (JBool false);
          gatherOpts_connection := tt;
          gatherOpts_driverMock := None |}].
Proof.
  destruct (gatherArtifacts_validation (Demo.world None) tt Demo.fullRun
              eq_refl) as (_ & _ & _ & H).
  rewrite (H ["defaultPass"] Demo.exampleUrl Demo.exampleUrl
             eq_refl eq_refl ltac:(discriminate) eq_refl).
  reflexivity.
Defined.

(** C5 as stated fails for an empty list of passes: it is truthy, so the
    request goes through to the gather runner. *)
Lemma gatherArtifacts_empty_passes_counterexample :
  shouldGather (config_settings (config Demo.emptyLists)) = true /\
  config_passes (config Demo.emptyLists) = Some [] /\
  gatherArtifacts (Demo.world None) tt Demo.emptyLists
  = ([GatherRunner_run_call Demo.exampleUrl []
        {| gatherOpts_settings := Demo.settingsOf (JBool false) (JBool false);
           gatherOpts_connection := tt;
           gatherOpts_driverMock := None |}],
     inr (Demo.artifactsFor Demo.exampleUrl
            (Some (Demo.settingsOf (JBool false) (JBool false))))).
Proof. repeat split. Qed.

Lemma run_requires_audits_witness :
  snd (run (Demo.world None) tt Demo.noAudits) = inl noAuditsError.
Proof.
  destruct (run_requires_audits (Demo.world None) tt Demo.noAudits eq_refl)
    as (_ & _ & H).
  apply (H eq_refl
           (Demo.artifactsFor Demo.exampleUrl
              (Some (Demo.settingsOf (JBool false) (JBool false)))));
    [reflexivity | discriminate].
Defined.

(** C6 as stated fails for an empty list of audits: it is truthy, so the
    audit runner is called, with no audit to run. *)
Lemma auditArtifacts_empty_audits_counterexample :
  config_audits (config Demo.emptyLists) = Some [] /\
  shouldAudit (config_settings (config Demo.emptyLists)) = true /\
  auditArtifacts (Demo.world None) (Demo.artifactsFor Demo.exampleUrl None)
    Demo.emptyLists
  = ([AuditRunner_run_call (Demo.settingsOf (JBool false) (JBool false)) []
        {| computed := instantiateComputedArtifacts (Demo.world None);
           base := Demo.artifactsFor Demo.exampleUrl None |}],
     inr ([Demo.auditA], ["audit warning"])).
Proof. repeat split. Qed.

Lemma run_gather_only_witness :
  run (Demo.world None) tt Demo.gatherOnly
  = ([Sentry_captureBreadcrumb "Run started" "lifecycle" JUndefined;
      GatherRunner_run_call Demo.exampleUrl ["defaultPass"]
        {| gatherOpts_settings := Demo.settingsOf (JStr "./out") (JBool false);
           gatherOpts_connection := tt;
           gatherOpts_driverMock := None |};
      saveArtifacts_call
        (Demo.artifactsFor Demo.exampleUrl
           (Some (Demo.settingsOf (JStr "./out") (JBool false))))
        "/home/user/./out"],
     inr None).
Proof.
  destruct (run_gather_only (Demo.world None) tt Demo.gatherOnly
              eq_refl eq_refl) as (_ & _ & _ & _ & H).
  rewrite (H [GatherRunner_run_call Demo.exampleUrl ["defaultPass"]
                {| gatherOpts_settings :=
                     Demo.settingsOf (JStr "./out") (JBool false);
                   gatherOpts_connection := tt;
                   gatherOpts_driverMock := None |}]
             (Demo.artifactsFor Demo.exampleUrl
                (Some (Demo.settingsOf (JStr "./out") (JBool false))))
             eq_refl eq_refl).
  reflexivity.
Defined.

(** C7 as stated fails when [gatherMode] is the empty string and
    [auditMode] is [false]: [shouldAudit] is false, the run returns
    [undefined], and nothing is saved; the artifacts were not even
    gathered but loaded. *)
Lemma run_empty_gatherMode_counterexample :
  shouldAudit (config_settings (config Demo.emptyGatherMode)) = false /\
  run (Demo.world None) tt Demo.emptyGatherMode
  = ([Sentry_captureBreadcrumb "Run started" "lifecycle" JUndefined;
      loadArtifacts_call "/home/user/"],
     inr None).
Proof. repeat split. Qed.



Lemma run_reports_and_rethrows_witness :
  exists t t0,
    run (Demo.world None) tt Demo.noAudits = (t, inl noAuditsError) /\
    runBody (Demo.world None) tt Demo.noAudits = (t0, inl noAuditsError) /\
    t = t0 ++ [Sentry_captureException noAuditsError "fatal"].
Proof.
  destruct (run_reports_and_rethrows (Demo.world None) tt Demo.noAudits)
    as (H & _ & _).
  destruct (H (fst (run (Demo.world None) tt Demo.noAudits)) noAuditsError
              eq_refl) as (_ & t0 & Hbody & Ht & _).
  exists (fst (run (Demo.world None) tt Demo.noAudits)), t0.
  split; [reflexivity |]. split; [exact Hbody | exact Ht].
Defined.

Lemma save_iff_gatherMode_witness :
  shouldGather (config_settings (config Demo.fullRun)) = true /\
  forall a p,
    saveArtifacts_call a p ∉ fst (run (Demo.world None) tt Demo.fullRun).
Proof.
  destruct (save_iff_gatherMode (Demo.world None) tt Demo.fullRun)
    as [_ H].
  destruct (H (or_introl (conj eq_refl eq_refl))) as (Hg & Hsave & _).
  split; [exact Hg | exact Hsave].
Defined.

(** * Further properties of the runner *)

(** ** The mode flags *)

(** X1: with two boolean flags, gathering is skipped only for [-A] alone
    and auditing only for [-G] alone, so some phase always runs; and two
    truthy flags, whatever their values, select both phases. *)
Theorem modes_select_a_phase (settings : Settings) :
  (forall g a, gatherMode settings = JBool g -> auditMode settings = JBool a ->
     shouldGather settings = g || negb a /\
     shouldAudit settings = a || negb g /\
     (shouldGather settings = true \/ shouldAudit settings = true)) /\
  (truthy (gatherMode settings) = true -> truthy (auditMode settings) = true ->
   shouldGather settings = true /\ shouldAudit settings = true).
Proof.
  unfold shouldGather, shouldAudit. split.
  - intros g a -> ->. destruct g, a; simpl; auto.
  - by intros -> ->.
Qed.

Lemma modes_select_a_phase_witness :
  shouldGather (Demo.settingsOf (JBool false) (JBool true)) = false /\
  shouldAudit (Demo.settingsOf (JBool false) (JBool true)) = true.
Proof.
  destruct (modes_select_a_phase (Demo.settingsOf (JBool false) (JBool true)))
    as [H _].
  destruct (H false true eq_refl eq_refl) as (Hg & Ha & _).
  split; [exact Hg | exact Ha].
Defined.

(** ** File names of computed artifacts *)

Lemma append_cons (c : ascii) (s t : string) :
  String c s +:+ t = String c (s +:+ t).
Proof. reflexivity. Qed.

Lemma append_nil (t : string) : EmptyString +:+ t = t.
Proof. reflexivity. Qed.

Lemma substring_full (s : string) :
  String.substring 0 (String.length s) s = s.
Proof. induction s as [|c s IH]; simpl; [done | by rewrite IH]. Qed.

Lemma substring_split (s : string) (n : nat) :
  n <= String.length s ->
  String.substring 0 n s +:+ String.substring n (String.length s - n) s = s.
Proof.
  revert n. induction s as [|c s IH]; intros [|n] Hn; simpl in *;
    try done; try lia.
  - by rewrite append_nil, substring_full.
  - rewrite append_cons. f_equal. apply IH. lia.
Qed.

Lemma substring_app_prefix (s t : string) :
  String.substring 0 (String.length s) (s +:+ t) = s.
Proof.
  induction s as [|c s IH]; [by destruct t |].
  rewrite append_cons. simpl. by rewrite IH.
Qed.

Lemma substring_app_suffix (s t : string) :
  String.substring (String.length s) (String.length t) (s +:+ t) = t.
Proof.
  induction s as [|c s IH]; [| rewrite append_cons; exact IH].
  rewrite append_nil. simpl String.length. destruct t; [done |].
  simpl. by rewrite substring_full.
Qed.

Lemma string_length_app (s t : string) :
  String.length (s +:+ t) = String.length s + String.length t.
Proof.
  induction s as [|c s IH]; [done |].
  rewrite append_cons. simpl. by rewrite IH.
Qed.

(** X2: [dropJsSuffix] takes one final [.js] off a file name and nothing
    else: a name with that suffix loses it; whenever the result differs
    from the name, the name is the result followed by [.js]; and a name
    of fewer than three characters is left alone. *)
Theorem dropJsSuffix_spec :
  (forall s, dropJsSuffix (s +:+ ".js") = s) /\
  (forall f, dropJsSuffix f <> f -> f = dropJsSuffix f +:+ ".js") /\
  (forall f, String.length f < 3 -> dropJsSuffix f = f).
Proof.
  split; [| split].
  - intros s. unfold dropJsSuffix.
    rewrite string_length_app. simpl String.length.
    replace (String.length s + 3 - 3) with (String.length s) by lia.
    pose proof (substring_app_suffix s ".js") as Hsuffix.
    simpl String.length in Hsuffix. rewrite Hsuffix, substring_app_prefix.
    destruct (3 <=? String.length s + 3) eqn:Hle; [done |].
    apply Nat.leb_gt in Hle. lia.
  - intros f. unfold dropJsSuffix.
    destruct (3 <=? String.length f) eqn:Hle; simpl; [| done].
    destruct (String.eqb _ ".js") eqn:Heq; [| done]. intros _.
    apply String.eqb_eq in Heq. apply Nat.leb_le in Hle.
    pose proof (substring_split f (String.length f - 3) ltac:(lia)) as Hs.
    replace (String.length f - (String.length f - 3)) with 3 in Hs by lia.
    by rewrite Heq in Hs.
  - intros f Hlt. unfold dropJsSuffix.
    destruct (3 <=? String.length f) eqn:Hle; [| done].
    apply Nat.leb_le in Hle. lia.
Qed.

Lemma dropJsSuffix_spec_witness :
  dropJsSuffix "a.js.js" = "a.js" /\ dropJsSuffix "js" = "js".
Proof.
  destruct dropJsSuffix_spec as (Hjs & _ & Hshort).
  split; [exact (Hjs "a.js") | apply Hshort; simpl; lia].
Defined.

(** ** Audit results by id *)

Lemma filter_unique_id (results : list AuditResult) (r : AuditResult) :
  NoDup (audit_id <$> results) -> r ∈ results ->
  filter (fun x => audit_id x = audit_id r) results = [r].
Proof.
  induction results as [|x results IH]; intros Hnd Hin;
    [by apply elem_of_nil in Hin |].
  rewrite fmap_cons in Hnd. apply NoDup_cons in Hnd as [Hx Hnd].
  rewrite filter_cons. apply elem_of_cons in Hin as [<- | Hin].
  - rewrite decide_True by done. f_equal.
    destruct (filter _ results) as [|y rest] eqn:Hf; [done |]. exfalso.
    assert (Hy : y ∈ filter (fun x => audit_id x = audit_id r) results)
      by (rewrite Hf; apply list_elem_of_here).
    apply list_elem_of_filter in Hy as [Heq Hy]. apply Hx.
    rewrite <- Heq. by apply list_elem_of_fmap_2.
  - rewrite decide_False; [by apply IH |].
    intros Heq. apply Hx. rewrite Heq. by apply list_elem_of_fmap_2.
Qed.

(** X3: [resultsById] has an entry exactly for the ids that occur among
    the audit results, and the entry of an id is a result with that id;
    when no id occurs twice, every result is found under its own id. *)
Theorem indexById_spec (results : list AuditResult) :
  (forall id, is_Some (indexById results !! id)
              <-> exists r, r ∈ results /\ audit_id r = id) /\
  (forall id r, indexById results !! id = Some r ->
                r ∈ results /\ audit_id r = id) /\
  (NoDup (audit_id <$> results) ->
   forall r, r ∈ results -> indexById results !! audit_id r = Some r).
Proof.
  assert (Hsome : forall id r, indexById results !! id = Some r ->
                               r ∈ results /\ audit_id r = id).
  { intros id r. rewrite indexById_lookup. intros Hlast.
    apply last_Some_elem_of in Hlast.
    by apply list_elem_of_filter in Hlast as [? ?]. }
  split; [| split; [exact Hsome |]].
  - intros id. split.
    + intros [r Hr]. exists r. by apply Hsome.
    + intros (r & Hin & Hid). rewrite indexById_lookup.
      destruct (last (filter _ results)) as [x|] eqn:Hlast; [eauto |].
      apply last_None in Hlast.
      assert (Hr : r ∈ filter (fun x => audit_id x = id) results)
        by by apply list_elem_of_filter.
      rewrite Hlast in Hr. by apply elem_of_nil in Hr.
  - intros Hnd r Hin.
    by rewrite indexById_lookup, filter_unique_id.
Qed.

Lemma indexById_spec_witness :
  indexById [Demo.auditA; Cases.auditB] !! "auditB" = Some Cases.auditB.
Proof.
  destruct (indexById_spec [Demo.auditA; Cases.auditB]) as (_ & _ & H).
  change "auditB" with (audit_id Cases.auditB).
  apply H; [| apply list_elem_of_further, list_elem_of_here].
  simpl. apply NoDup_cons. split; [| apply NoDup_singleton].
  by intros [=]%list_elem_of_singleton.
Defined.

Section MoreProofs.
Context {Connection Driver Pass AuditDefn : Type}.
Variable W : @Collaborators Connection Driver Pass AuditDefn.

Abbreviation Run' := (@M Connection Driver Pass AuditDefn).
Abbreviation Ev' := (@Event Connection Driver Pass AuditDefn).

(** *** The request functions of a run *)

Lemma fold_request_lookup (files : list string) (m : ComputedArtifacts)
    (k : string) :
  is_Some
    (fold_left
       (fun acc f =>
          <["request" +:+ computedArtifactName W (dropJsSuffix f)
            := NotStarted]> acc) files m !! k)
  <-> is_Some (m !! k)
      \/ exists f, f ∈ files
           /\ k = "request" +:+ computedArtifactName W (dropJsSuffix f).
Proof.
  revert m. induction files as [|f files IH]; intros m; simpl.
  - split; [by left | intros [? | (f & Hf & _)]; [done |]].
    by apply elem_of_nil in Hf.
  - rewrite IH, lookup_insert_is_Some. split.
    + intros [[<- | [_ Hm]] | (f' & Hf' & ->)].
      * right. exists f. split; [apply list_elem_of_here | done].
      * by left.
      * right. exists f'. split; [by apply list_elem_of_further | done].
    + intros [Hm | (f' & Hf' & ->)].
      * destruct (decide ("request" +:+ computedArtifactName W
                            (dropJsSuffix f) = k)); eauto.
      * apply elem_of_cons in Hf' as [-> | Hf']; [eauto |].
        right. by exists f'.
Qed.

(** X4: [instantiateComputedArtifacts] exposes one request function per
    file of the list of computed gatherers, under the key 'request'
    followed by the name of the class of that file (its [.js] suffix
    dropped), and nothing else; every one of them starts with an empty
    cache. *)
Theorem instantiateComputedArtifacts_keys (k : string) :
  (is_Some (instantiateComputedArtifacts W !! k)
   <-> exists f, f ∈ AuditRunner_getComputedGathererList W
         /\ k = "request" +:+ computedArtifactName W (dropJsSuffix f)) /\
  (forall s, instantiateComputedArtifacts W !! k = Some s ->
             s = NotStarted).
Proof.
  split; [| apply instantiateComputedArtifacts_fresh].
  unfold instantiateComputedArtifacts. rewrite fold_request_lookup.
  rewrite lookup_empty. split; [| by right].
  intros [[? ?] | ?]; done.
Qed.

(** *** The artifacts path *)

(** Every load of a run is the one of [gatherArtifacts]: nothing is to
    be gathered, and the artifacts path is read. *)
Lemma run_load_origin connection runOpts :
  let settings := config_settings (config runOpts) in
  Forall (fun ev => forall p, ev = loadArtifacts_call p ->
            shouldGather settings = false /\
            p = _getArtifactsPath W settings)
    (fst (run W connection runOpts)).
Proof.
  intros settings. apply run_trace; [| done].
  apply runBody_trace; try done.
  - unfold gatherArtifacts. fold settings.
    destruct (shouldGather settings) eqn:Hg; simpl negb; cbv iota zeta.
    + destruct (config_passes _); [| by constructor].
      destruct (url runOpts) as [u|]; [| by constructor].
      destruct (String.length u =? 0); [by constructor |].
      destruct (URL_href W u); [| by constructor].
      by apply Forall_call.
    + apply Forall_call. by intros p' [= <-].
  - intros _ a. apply auditArtifacts_trace; done.
Qed.

(** *** Where the calls of a run come from *)

Ltac walk_calls :=
  repeat first
    [ apply Forall_ret
    | apply Forall_throw
    | apply Forall_emit
    | apply Forall_call
    | apply Forall_bind; [| intros ? ? ]
    | match goal with
      | |- Forall _ (fst (if ?c then _ else _)) => destruct c eqn:?
      | |- Forall _ (fst (match ?x with _ => _ end)) => destruct x eqn:?
      | |- Forall _ (fst (let '(_, _) := ?x in _)) => destruct x eqn:?
      end
    | progress cbv zeta ].

(** As [runBody_trace], the events of the audit phase being those of the
    audit of the gathered artifacts. *)
Lemma runBody_trace_gathered (P : Ev' -> Prop) connection runOpts :
  let settings := config_settings (config runOpts) in
  (forall data, P (Sentry_captureBreadcrumb "Run started" "lifecycle" data)) ->
  Forall P (fst (gatherArtifacts W connection runOpts)) ->
  (forall a p, P (saveArtifacts_call a p)) ->
  (shouldAudit settings = true ->
   forall a, snd (gatherArtifacts W connection runOpts) = inr a ->
     Forall P (fst (auditArtifacts W a runOpts))) ->
  (forall l m, P (log_log l m)) ->
  (forall c r, P (scoreAllCategories_call c r)) ->
  (forall l, P (getRendererFormattedStrings_call l)) ->
  (forall l loc, P (replaceIcuMessageInstanceIds_call l loc)) ->
  (forall l o, P (generateReport_call l o)) ->
  Forall P (fst (runBody W connection runOpts)).
Proof.
  intros settings Hbc Hg Hsave Haudit Hlog Hscore Hstr Hicu Hrep.
  unfold runBody.
  apply Forall_bind; [apply Forall_emit, Hbc | intros _ _].
  apply Forall_bind; [exact Hg | intros a Ha].
  apply Forall_bind.
  { destruct (truthy _); [apply Forall_call, Hsave | apply Forall_ret]. }
  intros _ _.
  destruct (shouldAudit _) eqn:Hsa; simpl negb; cbv iota;
    [| apply Forall_ret].
  apply Forall_bind; [by apply Haudit | intros [results warnings] _].
  walk_calls; auto.
Qed.

(** X6: the gather runner is only ever called by a run that has to
    gather, with the passes of the config, the settings, the connection
    and the driver of the run, and with the canonical form of a
    non-empty url that parses. *)
Theorem gather_call_origin (connection : Connection) (runOpts : RunOpts)
    u passes opts :
  GatherRunner_run_call u passes opts ∈ fst (run W connection runOpts) ->
  shouldGather (config_settings (config runOpts)) = true /\
  config_passes (config runOpts) = Some passes /\
  (exists given, url runOpts = Some given /\ given <> EmptyString /\
                 URL_href W given = Some u) /\
  opts = {| gatherOpts_settings := config_settings (config runOpts);
            gatherOpts_connection := connection;
            gatherOpts_driverMock := driverMock runOpts |}.
Proof.
  intros Hin.
  assert (Hall : Forall (fun ev => forall u passes opts,
      ev = GatherRunner_run_call u passes opts ->
      shouldGather (config_settings (config runOpts)) = true /\
      config_passes (config runOpts) = Some passes /\
      (exists given, url runOpts = Some given /\ given <> EmptyString /\
                     URL_href W given = Some u) /\
      opts = {| gatherOpts_settings := config_settings (config runOpts);
                gatherOpts_connection := connection;
                gatherOpts_driverMock := driverMock runOpts |})
    (fst (run W connection runOpts))).
  { apply run_trace; [| done]. apply runBody_trace; try done.
    - unfold gatherArtifacts.
      destruct (shouldGather _) eqn:Hg; simpl negb; cbv iota zeta;
        [| by apply Forall_call].
      destruct (config_passes _) as [ps|] eqn:Hp; [| by constructor].
      destruct (url runOpts) as [given|] eqn:Hu; [| by constructor].
      destruct (String.length given =? 0) eqn:Hlen; [by constructor |].
      destruct (URL_href W given) as [href|] eqn:Hhref;
        [| by constructor].
      apply Forall_call. intros u' passes' opts' [= <- <- <-].
      repeat split; try done. exists given. repeat split; try done.
      intros ->. discriminate Hlen.
    - intros _ a. apply auditArtifacts_trace; done. }
  rewrite Forall_forall in Hall. by apply (Hall _ Hin).
Qed.

Lemma deepEqual_agree (gs cs : Settings) :
  isDeepEqual (Object_assign ∅ [gs; overrides])
              (Object_assign ∅ [cs; overrides]) = true ->
  forall k, ~ isRunModeKey k -> gs !! k = cs !! k.
Proof.
  intros Heq k Hk.
  destruct (decide (gs !! k = cs !! k)) as [| Hne]; [done |].
  assert (Hdiff : isDeepEqual (Object_assign ∅ [gs; overrides])
                    (Object_assign ∅ [cs; overrides]) = false)
    by (apply normalized_settings_differ; eauto).
  congruence.
Qed.

(** X7: the audit runner is only ever called by a run that has to
    audit, with the audits and the settings of the config, on the
    artifacts the gather phase returned, joined to a new set of
    computed artifacts; and only when the url of the run, if any,
    matches the artifacts and the settings recorded in the artifacts,
    if any, agree with the current ones outside [gatherMode],
    [auditMode] and [output]. *)
Theorem audit_call_origin (connection : Connection) (runOpts : RunOpts)
    s audits full :
  AuditRunner_run_call s audits full ∈ fst (run W connection runOpts) ->
  shouldAudit (config_settings (config runOpts)) = true /\
  config_audits (config runOpts) = Some audits /\
  s = config_settings (config runOpts) /\
  snd (gatherArtifacts W connection runOpts) = inr (base full) /\
  computed full = instantiateComputedArtifacts W /\
  urlDiffers (url runOpts) (requestedUrl (URL (base full))) = false /\
  (forall gs, artifacts_settings (base full) = Some gs ->
     forall k, ~ isRunModeKey k ->
       gs !! k = config_settings (config runOpts) !! k).
Proof.
  intros Hin.
  assert (Hall : Forall (fun ev => forall s audits full,
      ev = AuditRunner_run_call s audits full ->
      shouldAudit (config_settings (config runOpts)) = true /\
      config_audits (config runOpts) = Some audits /\
      s = config_settings (config runOpts) /\
      snd (gatherArtifacts W connection runOpts) = inr (base full) /\
      computed full = instantiateComputedArtifacts W /\
      urlDiffers (url runOpts) (requestedUrl (URL (base full))) = false /\
      (forall gs, artifacts_settings (base full) = Some gs ->
         forall k, ~ isRunModeKey k ->
           gs !! k = config_settings (config runOpts) !! k))
    (fst (run W connection runOpts))).
  { apply run_trace; [| done]. apply runBody_trace_gathered; try done.
    - apply gatherArtifacts_trace; done.
    - intros Hsa a Ha. unfold auditArtifacts. cbv zeta.
      destruct (config_audits _) as [au|] eqn:Hau; [| by constructor].
      destruct (urlDiffers _ _) eqn:Hurl; [by constructor |].
      apply Forall_bind.
      { destruct (artifacts_settings a); [| apply Forall_ret].
        destruct (isDeepEqual _ _); simpl negb; cbv iota;
          [apply Forall_ret | apply Forall_throw]. }
      intros [] Hcheck. apply Forall_call.
      intros s' audits' full' [= Hs' Haudits' Hfull'].
      subst s' audits' full'. simpl.
      repeat split; try done.
      intros gs Hgs. rewrite Hgs in Hcheck.
      destruct (isDeepEqual _ _) eqn:Heq; [| discriminate Hcheck].
      by apply deepEqual_agree. }
  rewrite Forall_forall in Hall. by apply (Hall _ Hin).
Qed.

(** *** The order of the calls *)

Lemma inOrder_nil lo hi : inOrder lo hi ([] : list Ev').
Proof. split; constructor. Qed.

Lemma inOrder_single lo hi (ev : Ev') :
  lo <= stage ev < hi -> inOrder lo hi [ev].
Proof.
  intros H. split.
  - apply StronglySorted_cons. split; constructor.
  - apply Forall_cons. split; [exact H | constructor].
Qed.

Lemma inOrder_app lo mid hi (t1 t2 : list Ev') :
  lo <= mid <= hi ->
  inOrder lo mid t1 -> inOrder mid hi t2 -> inOrder lo hi (t1 ++ t2).
Proof.
  intros Hmid [Hs1 Hb1] [Hs2 Hb2]. split.
  - rewrite fmap_app. apply StronglySorted_app_2; [| done | done].
    intros x1 x2 (e1 & -> & He1)%list_elem_of_fmap
      (e2 & -> & He2)%list_elem_of_fmap.
    rewrite Forall_forall in Hb1, Hb2.
    specialize (Hb1 _ He1). specialize (Hb2 _ He2). lia.
  - apply Forall_app. split.
    + eapply Forall_impl; [exact Hb1 |]. simpl. intros; lia.
    + eapply Forall_impl; [exact Hb2 |]. simpl. intros; lia.
Qed.

Lemma inOrder_bind {A B} lo mid hi (m : Run' A) (f : A -> Run' B) :
  lo <= mid <= hi ->
  inOrder lo mid (fst m) -> (forall a, inOrder mid hi (fst (f a))) ->
  inOrder lo hi (fst (m ≫= f)).
Proof.
  intros Hmid Hm Hf. unfold mbind, M_bind. destruct m as [t [e|a]].
  - simpl in *. rewrite <- (app_nil_r t).
    eapply inOrder_app; [exact Hmid | exact Hm | apply inOrder_nil].
  - specialize (Hf a). destruct (f a) as [t' r]. simpl in *.
    by eapply inOrder_app.
Qed.

Lemma inOrder_call {A} lo hi (ev : Ev') (r : JsVal + A) :
  lo <= stage ev < hi -> inOrder lo hi (fst (call ev r)).
Proof. apply inOrder_single. Qed.

Lemma gatherArtifacts_inOrder connection runOpts :
  inOrder 1 2 (fst (gatherArtifacts W connection runOpts)).
Proof.
  unfold gatherArtifacts.
  destruct (negb _); [apply inOrder_call; simpl; lia |].
  destruct (config_passes _); [| apply inOrder_nil].
  destruct (url runOpts) as [u|]; [| apply inOrder_nil].
  destruct (String.length u =? 0); [apply inOrder_nil |].
  destruct (URL_href W u); [| apply inOrder_nil].
  apply inOrder_call; simpl; lia.
Qed.

Lemma auditArtifacts_inOrder artifacts runOpts :
  inOrder 3 4 (fst (auditArtifacts W artifacts runOpts)).
Proof.
  unfold auditArtifacts. cbv zeta.
  destruct (config_audits _); [| apply inOrder_nil].
  destruct (urlDiffers _ _); [apply inOrder_nil |].
  apply (inOrder_bind 3 3 4); [lia | |].
  - destruct (artifacts_settings artifacts); [| apply inOrder_nil].
    destruct (negb _); apply inOrder_nil.
  - intros _. apply inOrder_call; simpl; lia.
Qed.

Lemma runBody_inOrder connection runOpts :
  inOrder 0 9 (fst (runBody W connection runOpts)).
Proof.
  unfold runBody. cbv zeta.
  apply (inOrder_bind 0 1 9); [lia | apply inOrder_single; simpl; lia |].
  intros _.
  apply (inOrder_bind 1 2 9); [lia | apply gatherArtifacts_inOrder |].
  intros a. apply (inOrder_bind 2 3 9); [lia | |].
  { destruct (truthy _); [apply inOrder_call; simpl; lia | apply inOrder_nil]. }
  intros _. destruct (negb _); [apply inOrder_nil |].
  apply (inOrder_bind 3 4 9); [lia | apply auditArtifacts_inOrder |].
  intros [results warnings].
  apply (inOrder_bind 4 5 9); [lia | apply inOrder_single; simpl; lia |].
  intros _. apply (inOrder_bind 5 6 9); [lia | |].
  { destruct (config_categories _);
      [apply inOrder_call; simpl; lia | apply inOrder_nil]. }
  intros cats.
  apply (inOrder_bind 6 7 9); [lia | apply inOrder_call; simpl; lia |].
  intros strings.
  apply (inOrder_bind 7 8 9); [lia | apply inOrder_call; simpl; lia |].
  intros [lhr1 paths].
  apply (inOrder_bind 8 9 9); [lia | apply inOrder_call; simpl; lia |].
  intros rep. apply inOrder_nil.
Qed.

Lemma run_inOrder connection runOpts :
  inOrder 0 10 (fst (run W connection runOpts)).
Proof.
  pose proof (runBody_inOrder connection runOpts) as Hbody.
  unfold run, try_catch.
  destruct (runBody W connection runOpts) as [t [e|r]]; simpl in *.
  - eapply (inOrder_app 0 9 10); [lia | exact Hbody |].
    apply inOrder_single. simpl. lia.
  - replace t with (t ++ []) by apply app_nil_r.
    eapply (inOrder_app 0 9 10); [lia | exact Hbody | apply inOrder_nil].
Qed.

Lemma sorted_lookup_lt (l : list nat) :
  StronglySorted lt l ->
  forall i j x y, l !! i = Some x -> l !! j = Some y -> i < j -> x < y.
Proof.
  induction 1 as [|x0 l Hl IH Hall]; intros i j x y Hi Hj Hij;
    [done |].
  destruct j as [|j]; [lia |]. simpl in Hj. destruct i as [|i].
  - injection Hi as <-. rewrite Forall_forall in Hall.
    apply Hall. by eapply list_elem_of_lookup_2.
  - simpl in Hi. apply (IH i j); [done | done | lia].
Qed.

(** X8: in every run, failed or not, the calls come in the order of the
    phases: the breadcrumb, the artifacts (one call, to the gather
    runner or to the loader), their save, the audits, the status line,
    the scoring, the renderer strings, the replacement of message
    references, the report, and last the report of an error to Sentry.
    No phase is entered twice and none comes before an earlier one. *)
Theorem run_calls_in_order (connection : Connection) (runOpts : RunOpts)
    i j e1 e2 :
  fst (run W connection runOpts) !! i = Some e1 ->
  fst (run W connection runOpts) !! j = Some e2 ->
  i < j -> stage e1 < stage e2.
Proof.
  intros Hi Hj Hij.
  destruct (run_inOrder connection runOpts) as [Hsorted _].
  apply (sorted_lookup_lt _ Hsorted i j); [| | done].
  - by rewrite list_lookup_fmap, Hi.
  - by rewrite list_lookup_fmap, Hj.
Qed.

(** *** What a run throws *)

Lemma bind_inl {A B} (m : Run' A) (f : A -> Run' B) t e :
  m ≫= f = (t, inl e) ->
  m = (t, inl e) \/
  exists t1 a t2, m = (t1, inr a) /\ f a = (t2, inl e) /\ t = t1 ++ t2.
Proof.
  unfold mbind, M_bind. destruct m as [t1 [e1|a]].
  - intros [= <- <-]. by left.
  - destruct (f a) as [t2 r] eqn:Hf. intros [= <- ->]. right. eauto 6.
Qed.

Lemma throwsOnly_bind {A B} P (m : Run' A) (f : A -> Run' B) :
  throwsOnly P m -> (forall a, throwsOnly P (f a)) ->
  throwsOnly P (m ≫= f).
Proof.
  intros Hm Hf e. unfold mbind, M_bind. destruct m as [t [e1|a]].
  - simpl. intros [= <-]. by apply Hm.
  - specialize (Hf a e). destruct (f a) as [t' r]. exact Hf.
Qed.

Lemma throwsOnly_ret {A} P (a : A) : throwsOnly P (mret a : Run' A).
Proof. by intros e. Qed.

Lemma throwsOnly_emit P (ev : Ev') : throwsOnly P (emit ev).
Proof. by intros e. Qed.

Lemma throwsOnly_call {A} (P : Exn -> Prop) (ev : Ev') (r : JsVal + A) :
  (forall v, P (Rejected v)) -> throwsOnly P (call ev r).
Proof. intros HP e. unfold call. simpl. destruct r; [| done]. by intros [= <-]. Qed.

Lemma gatherArtifacts_error connection runOpts t e :
  gatherArtifacts W connection runOpts = (t, inl e) ->
  (exists v, e = Rejected v) \/
  (shouldGather (config_settings (config runOpts)) = true /\
   t = [] /\ e ∈ gatherErrors (url runOpts)).
Proof.
  unfold gatherArtifacts, gatherErrors.
  destruct (shouldGather _); simpl negb; cbv iota zeta.
  - destruct (config_passes _).
    + destruct (url runOpts) as [u|].
      * destruct (String.length u =? 0).
        { intros [= <- <-]. right. set_solver. }
        destruct (URL_href W u).
        { unfold call. destruct (GatherRunner_run _ _ _ _); [| done].
          intros [= _ <-]. left. eauto. }
        intros [= <- <-]. right. set_solver.
      * intros [= <- <-]. right. set_solver.
    + intros [= <- <-]. right. set_solver.
  - unfold call. destruct (assetSaver_loadArtifacts _ _); [| done].
    intros [= _ <-]. left. eauto.
Qed.

Lemma auditArtifacts_error artifacts runOpts t e :
  auditArtifacts W artifacts runOpts = (t, inl e) ->
  (exists v, e = Rejected v) \/ (t = [] /\ e ∈ auditErrors).
Proof.
  unfold auditArtifacts, auditErrors. cbv zeta.
  destruct (config_audits _); [| intros [= <- <-]; right; set_solver].
  destruct (urlDiffers _ _); [intros [= <- <-]; right; set_solver |].
  intros [Hcheck | (t1 & [] & t2 & Hcheck & Hcall & ->)]%bind_inl.
  - destruct (artifacts_settings artifacts); [| done].
    destruct (negb _); [| done].
    injection Hcheck as <- <-. right. set_solver.
  - unfold call in Hcall.
    destruct (AuditRunner_run _ _ _ _); [| done].
    injection Hcall as _ <-. left. eauto.
Qed.

(** The artifacts a run has saved once the gather phase returned [a]. *)
Lemma save_step_inv (settings : Settings) (a : Artifacts)
    (t : list Ev') (r : Exn + unit) :
  (if truthy (gatherMode settings)
   then call (saveArtifacts_call a (_getArtifactsPath W settings))
          (assetSaver_saveArtifacts W a (_getArtifactsPath W settings))
   else mret ()) = (t, r) ->
  t = (if truthy (gatherMode settings)
       then [saveArtifacts_call a (_getArtifactsPath W settings)]
       else []) /\
  (forall e, r = inl e ->
     truthy (gatherMode settings) = true /\
     exists v, e = Rejected v /\
       assetSaver_saveArtifacts W a (_getArtifactsPath W settings) = inl v).
Proof.
  destruct (truthy _).
  - unfold call. intros [= <- <-]. split; [done |].
    intros e. destruct (assetSaver_saveArtifacts _ _ _); [| done].
    intros [= <-]. eauto.
  - intros [= <- <-]. by split.
Qed.

(** Where the error of the [try] block comes from. *)
Lemma runBody_error connection runOpts t e :
  let settings := config_settings (config runOpts) in
  let breadcrumb : Ev' :=
    Sentry_captureBreadcrumb "Run started" "lifecycle"
      (contextExtra (Sentry_getContext W)) in
  let saved a : list Ev' :=
    if truthy (gatherMode settings)
    then [saveArtifacts_call a (_getArtifactsPath W settings)] else [] in
  runBody W connection runOpts = (t, inl e) ->
  (exists tg, gatherArtifacts W connection runOpts = (tg, inl e) /\
              t = breadcrumb :: tg) \/
  (exists tg a v,
      gatherArtifacts W connection runOpts = (tg, inr a) /\
      truthy (gatherMode settings) = true /\
      assetSaver_saveArtifacts W a (_getArtifactsPath W settings) = inl v /\
      e = Rejected v /\ t = breadcrumb :: tg ++ saved a) \/
  (exists tg a ta,
      gatherArtifacts W connection runOpts = (tg, inr a) /\
      shouldAudit settings = true /\
      auditArtifacts W a runOpts = (ta, inl e) /\
      t = breadcrumb :: tg ++ saved a ++ ta) \/
  (exists tg a ta results warnings v,
      gatherArtifacts W connection runOpts = (tg, inr a) /\
      shouldAudit settings = true /\
      auditArtifacts W a runOpts = (ta, inr (results, warnings)) /\
      e = Rejected v).
Proof.
  intros settings breadcrumb saved. unfold runBody. cbv zeta.
  fold settings.
  intros [Hbc | (t1 & [] & t2 & Hbc & H & ->)]%bind_inl; [done |].
  injection Hbc as <-.
  apply bind_inl in H as [Hg | (tg & a & t3 & Hg & H & ->)].
  { left. eauto. }
  apply bind_inl in H as [Hs | (ts & [] & t4 & Hs & H & ->)].
  { apply save_step_inv in Hs as [-> Hs].
    destruct (Hs e eq_refl) as (Ht & v & -> & Hv).
    right. left. exists tg, a, v. repeat split; done. }
  apply save_step_inv in Hs as [-> _]. fold (saved a).
  destruct (shouldAudit settings) eqn:Hsa; simpl negb in H;
    cbv iota in H; [| done].
  apply bind_inl in H as [Ha | (ta & [results warnings] & t5 & Ha & H & ->)].
  { right. right. left. exists tg, a, t4. repeat split; done. }
  right. right. right. exists tg, a, ta, results, warnings.
  cbv beta iota in H.
  assert (Hrej : exists v, e = Rejected v); [| destruct Hrej; eauto 10].
  revert H. generalize t5. intros t' H.
  assert (Hsnd := f_equal snd H). cbn [snd] in Hsnd. clear H.
  revert e Hsnd.
  match goal with
  | |- forall e, snd ?m = inl e -> _ =>
      change (throwsOnly (fun e => exists v, e = Rejected v) m)
  end.
  repeat first
    [ apply throwsOnly_ret | apply throwsOnly_emit
    | apply throwsOnly_call; eauto
    | apply throwsOnly_bind; [| intros ?]
    | match goal with
      | |- throwsOnly _ (match ?x with _ => _ end) => destruct x
      | |- throwsOnly _ (let '(_, _) := ?x in _) => destruct x
      end ].
Qed.

Lemma run_inl connection runOpts t e :
  run W connection runOpts = (t, inl e) ->
  exists t0, runBody W connection runOpts = (t0, inl e) /\
             t = t0 ++ [Sentry_captureException e "fatal"].
Proof.
  unfold run, try_catch.
  destruct (runBody W connection runOpts) as [t0 [e0|r0]]; [| done].
  intros [= <- <-]. by exists t0.
Qed.

(** X9: when a run throws an [Error] of its own making, it is one of
    the three errors of the gather phase, thrown by a run that has to
    gather before anything but the breadcrumb has happened, or one of
    the three errors of the audit phase, thrown by a run that has to
    audit once the artifacts are there (and saved, if they have to be)
    and before any call to the audit runner; in both cases the report
    of the error to Sentry is the last event. *)
Theorem run_own_errors (connection : Connection) (runOpts : RunOpts)
    t msg :
  let settings := config_settings (config runOpts) in
  let breadcrumb : Ev' :=
    Sentry_captureBreadcrumb "Run started" "lifecycle"
      (contextExtra (Sentry_getContext W)) in
  run W connection runOpts = (t, inl (Error msg)) ->
  (shouldGather settings = true /\
   Error msg ∈ gatherErrors (url runOpts) /\
   t = [breadcrumb; Sentry_captureException (Error msg) "fatal"]) \/
  (shouldAudit settings = true /\
   Error msg ∈ auditErrors /\
   exists tg a,
     gatherArtifacts W connection runOpts = (tg, inr a) /\
     t = breadcrumb :: tg
         ++ (if truthy (gatherMode settings)
             then [saveArtifacts_call a (_getArtifactsPath W settings)]
             else [])
         ++ [Sentry_captureException (Error msg) "fatal"]).
Proof.
  intros settings breadcrumb Hrun.
  apply run_inl in Hrun as (t0 & Hbody & ->).
  apply runBody_error in Hbody
    as [(tg & Hg & ->)
       | [(tg & a & v & _ & _ & _ & Hv & _)
         | [(tg & a & ta & Hg & Hsa & Ha & ->)
           | (tg & a & ta & rs & ws & v & _ & _ & _ & Hv)]]];
    try discriminate Hv.
  - left. apply gatherArtifacts_error in Hg
      as [[v Hv] | (Hsg & -> & Hin)]; [discriminate Hv | done].
  - right. apply auditArtifacts_error in Ha
      as [[v Hv] | (-> & Hin)]; [discriminate Hv |].
    split; [done |]. split; [done |]. exists tg, a. split; [done |].
    simpl. by rewrite <- !app_assoc.
Qed.

(** *** A run that fails early *)

(** X10: when the gather phase fails, by a check or because the gather
    runner or the loader throws, the run ends there: the error is
    reported to Sentry and thrown, nothing is saved and nothing audited.
    When the save of the artifacts fails, the run ends likewise with
    what the asset saver threw, and no audit is run although one may
    have been asked for. *)
Theorem run_stops_at_failure (connection : Connection) (runOpts : RunOpts) :
  let settings := config_settings (config runOpts) in
  let breadcrumb : Ev' :=
    Sentry_captureBreadcrumb "Run started" "lifecycle"
      (contextExtra (Sentry_getContext W)) in
  (forall tg e, gatherArtifacts W connection runOpts = (tg, inl e) ->
     run W connection runOpts
     = (breadcrumb :: tg ++ [Sentry_captureException e "fatal"], inl e)) /\
  (forall tg a v, gatherArtifacts W connection runOpts = (tg, inr a) ->
     truthy (gatherMode settings) = true ->
     assetSaver_saveArtifacts W a (_getArtifactsPath W settings) = inl v ->
     run W connection runOpts
     = (breadcrumb :: tg
          ++ [saveArtifacts_call a (_getArtifactsPath W settings);
              Sentry_captureException (Rejected v) "fatal"],
        inl (Rejected v))).
Proof.
  intros settings breadcrumb. split.
  - intros tg e Hg.
    rewrite (run_fail W _ _ (breadcrumb :: tg) e); [done |].
    unfold runBody. cbv zeta.
    rewrite (bind_ok (emit _) _ [breadcrumb] tt eq_refl). cbv beta.
    by rewrite (bind_fail _ _ _ _ Hg).
  - intros tg a v Hg Ht Hv.
    rewrite (run_fail W _ _
               (breadcrumb :: tg
                  ++ [saveArtifacts_call a (_getArtifactsPath W settings)])
               (Rejected v)).
    { simpl. by rewrite <- app_assoc. }
    unfold runBody. cbv zeta. fold settings.
    rewrite (bind_ok (emit _) _ [breadcrumb] tt eq_refl). cbv beta.
    rewrite (bind_ok _ _ _ _ Hg). cbv beta. rewrite Ht.
    rewrite Hv.
    by rewrite (bind_fail (call _ (inl v)) _ [_] (Rejected v) eq_refl).
Qed.

(** *** A run that loads its artifacts *)

(** X11: a run that has not to gather reads the artifacts from the
    artifacts path without looking at [config.passes] or at the url; it
    never calls the gather runner and never saves; and if it has not to
    audit either, it returns [undefined] as soon as the artifacts are
    read. *)
Theorem run_without_gathering (connection : Connection) (runOpts : RunOpts) :
  let settings := config_settings (config runOpts) in
  let path := _getArtifactsPath W settings in
  shouldGather settings = false ->
  gatherArtifacts W connection runOpts
  = call (loadArtifacts_call path) (assetSaver_loadArtifacts W path) /\
  Forall (fun ev => ~ isGatherRun ev /\ ~ isSave ev)
    (fst (run W connection runOpts)) /\
  (shouldAudit settings = false ->
   forall a, assetSaver_loadArtifacts W path = inr a ->
     run W connection runOpts
     = ([Sentry_captureBreadcrumb "Run started" "lifecycle"
           (contextExtra (Sentry_getContext W));
         loadArtifacts_call path],
        inr None)).
Proof.
  intros settings path Hsg.
  assert (Hg : gatherArtifacts W connection runOpts
               = call (loadArtifacts_call path)
                   (assetSaver_loadArtifacts W path)).
  { unfold gatherArtifacts. fold settings. by rewrite Hsg. }
  assert (Ht : truthy (gatherMode settings) = false).
  { unfold shouldGather in Hsg. by apply orb_false_iff in Hsg as [? _]. }
  split; [exact Hg |]. split.
  - apply run_trace; [| simpl; tauto].
    apply runBody_trace; fold settings; simpl; try tauto; try congruence.
    + rewrite Hg. apply Forall_call. simpl. tauto.
    + intros _ a. apply auditArtifacts_trace. simpl. tauto.
  - intros Hsa a Ha. apply (run_ok W).
    unfold runBody. cbv zeta. fold settings.
    rewrite (bind_ok (emit _) _ [_] tt eq_refl). cbv beta.
    rewrite Hg. fold path. rewrite Ha.
    rewrite (bind_ok (call _ (inr a)) _ [_] a eq_refl). cbv beta.
    rewrite Ht, Hsa.
    reflexivity.
Qed.

(** *** What a run returns *)

(** X12: a run returns [undefined] only when it has not to audit, and a
    result only when it has to.  In a result, the artifacts are the ones
    the gather phase returned; the report is what the report generator
    made, as the last call of the run, of the returned record and
    [settings.output]; and the returned record is the record that came
    out of the replacement of message references, with its
    [icuMessagePaths] set to the paths that replacement returned and
    nothing else changed. *)
Theorem run_result_origin (connection : Connection) (runOpts : RunOpts)
    t r :
  let settings := config_settings (config runOpts) in
  run W connection runOpts = (t, inr r) ->
  (r = None -> shouldAudit settings = false) /\
  (forall res, r = Some res ->
     shouldAudit settings = true /\
     snd (gatherArtifacts W connection runOpts) = inr (artifacts res) /\
     generateReport W (lhr res) (output settings) = inr (report res) /\
     last t = Some (generateReport_call (lhr res) (output settings)) /\
     exists lhr0 lhr1 paths,
       replaceIcuMessageInstanceIds_call lhr0 (locale settings) ∈ t /\
       i18n_replaceIcuMessageInstanceIds W lhr0 (locale settings)
       = inr (lhr1, paths) /\
       lhr res
       = {| lhr_userAgent := lhr_userAgent lhr1;
            lhr_environment := lhr_environment lhr1;
            lhr_lighthouseVersion := lhr_lighthouseVersion lhr1;
            lhr_fetchTime := lhr_fetchTime lhr1;
            lhr_requestedUrl := lhr_requestedUrl lhr1;
            lhr_finalUrl := lhr_finalUrl lhr1;
            lhr_runWarnings := lhr_runWarnings lhr1;
            lhr_audits := lhr_audits lhr1;
            lhr_configSettings := lhr_configSettings lhr1;
            lhr_categories := lhr_categories lhr1;
            lhr_categoryGroups := lhr_categoryGroups lhr1;
            lhr_timing := lhr_timing lhr1;
            lhr_i18n :=
              {| rendererFormattedStrings :=
                   rendererFormattedStrings (lhr_i18n lhr1);
                 icuMessagePaths := paths |} |}).
Proof.
  intros settings Hrun.
  apply (run_inr W) in Hrun. unfold runBody in Hrun. cbv zeta in Hrun.
  fold settings in Hrun.
  apply bind_inr in Hrun as (t1 & [] & t2 & _ & Hrun & ->).
  apply bind_inr in Hrun as (tg & a & t3 & Hg & Hrun & ->).
  apply bind_inr in Hrun as (ts & [] & t4 & Hs & Hrun & ->).
  destruct (shouldAudit settings); simpl negb in Hrun; cbv iota in Hrun.
  - apply bind_inr in Hrun
      as (ta & [results warnings] & t5 & Ha & Hrun & ->).
    cbv beta iota in Hrun.
    apply bind_inr in Hrun as (tl & [] & t6 & _ & Hrun & ->).
    apply bind_inr in Hrun as (tc & categories & t7 & Hc & Hrun & ->).
    apply bind_inr in Hrun as (tstr & strings & t8 & Hstr & Hrun & ->).
    apply bind_inr in Hrun as (ti & [lhr1 paths] & t9 & Hi & Hrun & ->).
    cbv beta iota in Hrun.
    apply bind_inr in Hrun as (tr & rep & t10 & Hr & Hrun & ->).
    injection Hrun as <- <-.
    apply call_inr in Hi as [-> Hi]. apply call_inr in Hr as [-> Hr].
    split; [done |]. intros res [= <-]. simpl.
    split; [done |]. split; [by rewrite Hg |]. split; [exact Hr |].
    split.
    + rewrite !last_app. reflexivity.
    + eexists _, lhr1, paths. split; [| split; [exact Hi | done]].
      rewrite !elem_of_app. do 7 right.
      first [apply list_elem_of_here | left; apply list_elem_of_here].
  - injection Hrun as <- <-. split; [done |]. by intros res.
Qed.


End MoreProofs.

Section TwoRuns.
Context {Connection Driver Pass AuditDefn : Type}.
Variables W1 W2 : @Collaborators Connection Driver Pass AuditDefn.

(** X5: let two runs, each with its own collaborators, have the same
    working directory and the same [path.resolve] and [path.join].  The
    directory the first writes its artifacts to is the directory the
    second reads them from, when the second gets as [auditMode] what
    the first had as [gatherMode] ([-G] then [-A], or [-G=dir] then
    [-A=dir]) and the other flag of each is no string.  Within one run
    a string [auditMode] decides the path alone: with two strings the
    artifacts are saved in the directory of [auditMode]. *)
Theorem artifacts_path_round_trip
    (c1 c2 : Connection) (o1 o2 : RunOpts) :
  let s1 := config_settings (config o1) in
  let s2 := config_settings (config o2) in
  (process_cwd W1 = process_cwd W2 ->
   (forall from to, path_resolve W1 from to = path_resolve W2 from to) ->
   (forall dir name, path_join W1 dir name = path_join W2 dir name) ->
   gatherMode s1 = auditMode s2 ->
   isString (auditMode s1) = false -> isString (gatherMode s2) = false ->
   _getArtifactsPath W1 s1 = _getArtifactsPath W2 s2 /\
   forall a p1 p2,
     saveArtifacts_call a p1 ∈ fst (run W1 c1 o1) ->
     loadArtifacts_call p2 ∈ fst (run W2 c2 o2) -> p1 = p2) /\
  (forall dir a p,
      auditMode s1 = JStr dir ->
      saveArtifacts_call a p ∈ fst (run W1 c1 o1) ->
      p = path_resolve W1 (process_cwd W1) dir).
Proof.
  intros s1 s2. split.
  - intros Hcwd Hresolve Hjoin Hm Ha1 Hg2.
    assert (Hpath : _getArtifactsPath W1 s1 = _getArtifactsPath W2 s2).
    { unfold _getArtifactsPath. rewrite <- Hm, <- Hcwd.
      destruct (auditMode s1); try done;
        destruct (gatherMode s1); try done;
        destruct (gatherMode s2); try done;
        first [apply Hresolve | apply Hjoin]. }
    split; [exact Hpath |]. intros a p1 p2 Hsave Hload.
    pose proof (run_save_origin W1 c1 o1) as Hs.
    pose proof (run_load_origin W2 c2 o2) as Hl.
    rewrite Forall_forall in Hs, Hl.
    destruct (Hs _ Hsave a p1 eq_refl) as (_ & _ & ->).
    destruct (Hl _ Hload p2 eq_refl) as (_ & ->). exact Hpath.
  - intros dir a p Ha Hsave.
    pose proof (run_save_origin W1 c1 o1) as Hs.
    rewrite Forall_forall in Hs.
    destruct (Hs _ Hsave a p eq_refl) as (_ & _ & ->).
    unfold _getArtifactsPath. fold s1. by rewrite Ha.
Qed.

End TwoRuns.


Lemma instantiateComputedArtifacts_keys_witness :
  instantiateComputedArtifacts (Demo.world None) !! "requestTraceOfTab"
  = Some NotStarted.
Proof.
  destruct (instantiateComputedArtifacts_keys (Demo.world None)
              "requestTraceOfTab") as [Hkey Hfresh].
  destruct (proj2 Hkey) as [s Hs].
  - exists "trace-of-tab.js". split; [| reflexivity].
    apply list_elem_of_further, list_elem_of_here.
  - rewrite Hs. f_equal. by apply Hfresh.
Defined.

Lemma artifacts_path_round_trip_witness :
  _getArtifactsPath (Demo.world None)
    (config_settings (config Demo.gatherOnly))
  = _getArtifactsPath Cases.readOnlyWorld
      (config_settings (config Cases.auditFrom)).
Proof.
  destruct (artifacts_path_round_trip (Demo.world None) Cases.readOnlyWorld
              tt tt Demo.gatherOnly Cases.auditFrom) as [H _].
  by destruct (H eq_refl ltac:(reflexivity) ltac:(reflexivity)
                 eq_refl eq_refl eq_refl) as [Hpath _].
Defined.

Lemma gather_call_origin_witness :
  shouldGather (config_settings (config Demo.fullRun)) = true /\
  config_passes (config Demo.fullRun) = Some ["defaultPass"].
Proof.
  destruct (gather_call_origin (Demo.world None) tt Demo.fullRun
              Demo.exampleUrl ["defaultPass"]
              {| gatherOpts_settings :=
                   Demo.settingsOf (JBool false) (JBool false);
                 gatherOpts_connection := tt;
                 gatherOpts_driverMock := None |})
    as (Hg & Hp & _).
  - apply list_elem_of_further, list_elem_of_here.
  - split; [exact Hg | exact Hp].
Defined.

Lemma audit_call_origin_witness :
  shouldAudit (config_settings (config Demo.auditOnly)) = true /\
  urlDiffers (url Demo.auditOnly) Demo.exampleUrl = false.
Proof.
  destruct (audit_call_origin (Demo.world None) tt Demo.auditOnly
              (Demo.settingsOf (JBool false) (JBool true)) ["auditA"]
              {| computed := instantiateComputedArtifacts (Demo.world None);
                 base := Demo.artifactsFor Demo.exampleUrl None |})
    as (Ha & _ & _ & _ & _ & Hu & _).
  - apply list_elem_of_further, list_elem_of_further, list_elem_of_here.
  - split; [exact Ha | exact Hu].
Defined.

Lemma run_calls_in_order_witness :
  stage (saveArtifacts_call
           (Demo.artifactsFor Demo.exampleUrl
              (Some (Demo.settingsOf (JBool true) (JBool true))))
           "/home/user/latest-run"
         : @Event unit unit string string)
  < stage (AuditRunner_run_call
             (Demo.settingsOf (JBool true) (JBool true)) ["auditA"]
             {| computed := instantiateComputedArtifacts (Demo.world None);
                base := Demo.artifactsFor Demo.exampleUrl
                          (Some (Demo.settingsOf (JBool true) (JBool true))) |}
           : @Event unit unit string string).
Proof.
  apply (run_calls_in_order (Demo.world None) tt Cases.gatherAndAudit 2 3);
    [reflexivity | reflexivity | lia].
Defined.

Lemma run_own_errors_witness :
  shouldGather (config_settings (config Cases.noPasses)) = true /\
  noPassesError ∈ gatherErrors (url Cases.noPasses).
Proof.
  destruct (run_own_errors (Demo.world None) tt Cases.noPasses
              (fst (run (Demo.world None) tt Cases.noPasses))
              "No passes in config to run" eq_refl)
    as [(Hg & Hin & _) | (_ & _ & tg & a & Hgather & _)].
  - split; [exact Hg | exact Hin].
  - discriminate Hgather.
Defined.

Lemma run_stops_at_failure_witness :
  run Cases.readOnlyWorld tt Cases.gatherAndAudit
  = ([Sentry_captureBreadcrumb "Run started" "lifecycle" JUndefined;
      GatherRunner_run_call Demo.exampleUrl ["defaultPass"]
        {| gatherOpts_settings := Demo.settingsOf (JBool true) (JBool true);
           gatherOpts_connection := tt;
           gatherOpts_driverMock := None |};
      saveArtifacts_call
        (Demo.artifactsFor Demo.exampleUrl
           (Some (Demo.settingsOf (JBool true) (JBool true))))
        "/home/user/latest-run";
      Sentry_captureException (Rejected (JStr "EACCES")) "fatal"],
     inl (Rejected (JStr "EACCES"))).
Proof.
  destruct (run_stops_at_failure Cases.readOnlyWorld tt Cases.gatherAndAudit)
    as [_ H].
  exact (H [GatherRunner_run_call Demo.exampleUrl ["defaultPass"]
              {| gatherOpts_settings :=
                   Demo.settingsOf (JBool true) (JBool true);
                 gatherOpts_connection := tt;
                 gatherOpts_driverMock := None |}]
           (Demo.artifactsFor Demo.exampleUrl
              (Some (Demo.settingsOf (JBool true) (JBool true))))
           (JStr "EACCES") eq_refl eq_refl eq_refl).
Defined.

Lemma run_without_gathering_witness :
  gatherArtifacts (Demo.world None) tt Cases.auditFrom
  = ([loadArtifacts_call "/home/user/./out"],
     inr (Demo.artifactsFor Demo.exampleUrl None)).
Proof.
  destruct (run_without_gathering (Demo.world None) tt Cases.auditFrom
              eq_refl) as [H _].
  rewrite H. reflexivity.
Defined.

Lemma run_result_origin_witness :
  shouldAudit (config_settings (config Demo.gatherOnly)) = false.
Proof.
  destruct (run_result_origin (Demo.world None) tt Demo.gatherOnly
              (fst (run (Demo.world None) tt Demo.gatherOnly)) None eq_refl)
    as [H _].
  exact (H eq_refl).
Defined.
